(** * RFM scoring and segmentation engine of olist_analytics

    A shallow embedding of
      - [src/core/exceptions.py]         (the exception classes),
      - [src/analytics/rfm_analysis.py]  (the simple analyzer [RFMAnalyzer]),
      - [src/analytics/enhanced_rfm.py]  (the enterprise analyzer
                                          [EnterpriseRFMAnalyzer]),
      - [src/data_quality/validator.py]  (validation results and rules),
      - [src/main.py]                    ([run_rfm_analysis]),
    together with the pandas / numpy primitives these call.

    Conventions.
      - A float64 column is a list of cells; a cell is [option Q], with [None]
        for a missing value (NaN).  Arithmetic is exact rational arithmetic
        in place of binary64: there is no rounding, no infinity and no
        overflow.  Where a property would depend on those, its statement
        carries the size condition that keeps it clear of them.
      - A computation that may raise returns a [result]: [Ok v] or [Raise e].
      - A DataFrame is a list of row records; a column is read with [map]. *)

From stdpp Require Import gmap strings.
From Stdlib Require Import ZArith QArith Qround Qabs List Sorted Bool Lia Lqa DecimalString.
Import ListNotations.

Local Open Scope string_scope.
Local Open Scope list_scope.
Local Open Scope Z_scope.

(** ** Exceptions: Python's built-in ones that the code meets, and the classes
    of [core/exceptions.py]. *)

Inductive exn : Type :=
  | ValueError
  | TypeError
  | IndexError
  | ZeroDivisionError
  | OlistAnalyticsError
  | DataValidationError
  | ConfigurationError
  | AnalysisError
  | DataIntegrityError
  | CacheError
  | DatabaseError
  | AuthenticationError
  | AuthorizationError.

(** [self.__class__.__name__], as [to_dict] reports it under
    ['exception_type']. *)
Definition exception_type (e : exn) : string :=
  match e with
  | ValueError => "ValueError"
  | TypeError => "TypeError"
  | IndexError => "IndexError"
  | ZeroDivisionError => "ZeroDivisionError"
  | OlistAnalyticsError => "OlistAnalyticsError"
  | DataValidationError => "DataValidationError"
  | ConfigurationError => "ConfigurationError"
  | AnalysisError => "AnalysisError"
  | DataIntegrityError => "DataIntegrityError"
  | CacheError => "CacheError"
  | DatabaseError => "DatabaseError"
  | AuthenticationError => "AuthenticationError"
  | AuthorizationError => "AuthorizationError"
  end.

(** Every exception class that exists for this program. *)
Definition all_exceptions : list exn :=
  [ValueError; TypeError; IndexError; ZeroDivisionError; OlistAnalyticsError;
   DataValidationError; ConfigurationError; AnalysisError; DataIntegrityError;
   CacheError; DatabaseError; AuthenticationError; AuthorizationError].

Definition exn_eqb (a b : exn) : bool :=
  String.eqb (exception_type a) (exception_type b).

Inductive result (A : Type) : Type :=
  | Ok (a : A)
  | Raise (e : exn).
Arguments Ok {A} a.
Arguments Raise {A} e.

Definition bind {A B : Type} (c : result A) (k : A -> result B) : result B :=
  match c with
  | Ok a => k a
  | Raise e => Raise e
  end.

Notation "x <- c ;; k" := (bind c (fun x => k))
  (at level 100, c at next level, right associativity).

(** [try: body  except (classes): handler]; an exception raised by the
    handler itself propagates. *)
Definition try_except {A : Type} (body : result A) (classes : list exn)
    (handler : result A) : result A :=
  match body with
  | Ok a => Ok a
  | Raise e => if existsb (exn_eqb e) classes then handler else Raise e
  end.

(** ** Cells and columns *)

Definition cell : Type := option Q.
Definition column : Type := list cell.

Definition num (z : Z) : cell := Some (inject_Z z).

Definition dropna (x : column) : list Q :=
  flat_map (fun c => match c with Some v => [v] | None => [] end) x.

Definition Qltb (a b : Q) : bool := negb (Qle_bool b a).

(** NaN compares false with everything. *)
Definition cell_ltb (a b : cell) : bool :=
  match a, b with
  | Some u, Some v => Qltb u v
  | _, _ => false
  end.

Definition cell_leb (a b : cell) : bool :=
  match a, b with
  | Some u, Some v => Qle_bool u v
  | _, _ => false
  end.

Definition cell_eqb (a b : cell) : bool :=
  match a, b with
  | Some u, Some v => Qeq_bool u v
  | _, _ => false
  end.

(** Identity of cells as [unique] sees it: all NaN are one value. *)
Definition cell_same (a b : cell) : bool :=
  match a, b with
  | Some u, Some v => Qeq_bool u v
  | None, None => true
  | _, _ => false
  end.

(** ** Sorting (stable insertion sort on a total preorder) *)

Section Sort.
Context {A : Type} (leb : A -> A -> bool).

Fixpoint insert_sorted (a : A) (l : list A) : list A :=
  match l with
  | [] => [a]
  | b :: t => if leb a b then a :: l else b :: insert_sorted a t
  end.

Definition sort_by (l : list A) : list A := fold_right insert_sorted [] l.
End Sort.

(** ** pandas / numpy primitives *)

(** [np.linspace(a, b, num)]. *)
Definition linspace (a b : Q) (num : nat) : list Q :=
  map (fun i => (a + inject_Z (Z.of_nat i) * ((b - a) / inject_Z (Z.of_nat num - 1)))%Q)
      (seq 0 num).

(** One quantile of the sorted, NaN-free [values], linear interpolation
    between the two neighbouring order statistics; NaN when there is no
    value. *)
Definition get_score (values : list Q) (at_ : Q) : cell :=
  match values with
  | [] => None
  | _ :: _ =>
      let idx := (at_ * inject_Z (Z.of_nat (length values) - 1))%Q in
      let lo := Qfloor idx in
      let frac := (idx - inject_Z lo)%Q in
      let a := nth (Z.to_nat lo) values 0%Q in
      if Qeq_bool frac 0 then Some a
      else
        let b := nth (Z.to_nat lo + 1) values 0%Q in
        Some (a + (b - a) * frac)%Q
  end.

Definition quantile (x : column) (qs : list Q) : list cell :=
  map (get_score (sort_by Qle_bool (dropna x))) qs.

(** [algos.unique]: first occurrences, in order. *)
Fixpoint unique_from (seen : list cell) (l : list cell) : list cell :=
  match l with
  | [] => []
  | c :: t =>
      if existsb (cell_same c) seen then unique_from seen t
      else c :: unique_from (c :: seen) t
  end.

Definition unique (l : list cell) : list cell := unique_from [] l.

(** [bins.searchsorted(v, side='left')] on ascending [bins]: the number of
    edges strictly below [v]. *)
Definition searchsorted_left (bins : list cell) (v : cell) : nat :=
  length (List.filter (fun b => cell_ltb b v) bins).

Fixpoint has_duplicates (l : list Z) : bool :=
  match l with
  | [] => false
  | a :: t => existsb (Z.eqb a) t || has_duplicates t
  end.

(** A categorical column: its categories and, per row, a category or NaN. *)
Record Categorical : Type := mkCategorical {
  categories : list Z;
  cat_values : list (option Z)
}.

(** [_bins_to_cuts(x, bins, right=True, labels=labels,
    include_lowest=..., duplicates=...)] with a list of labels. *)
Definition _bins_to_cuts (x : column) (bins : list cell) (labels : list Z)
    (include_lowest : bool) (duplicates_drop : bool) : result Categorical :=
  let unique_bins := unique bins in
  bins <- (if (length unique_bins <? length bins)%nat
              && negb (length bins =? 2)%nat
           then if duplicates_drop then Ok unique_bins else Raise ValueError
           else Ok bins) ;;
  let ids :=
    map (fun v =>
           let id := searchsorted_left bins v in
           if include_lowest && cell_eqb v (nth 0 bins None) then 1%nat else id)
        x in
  let na_mask :=
    map (fun vi : cell * nat => match fst vi with
                   | None => true
                   | Some _ => (snd vi =? length bins)%nat || (snd vi =? 0)%nat
                   end)
        (combine x ids) in
  if has_duplicates labels then Raise ValueError
  else if negb (Z.of_nat (length labels) =? Z.of_nat (length bins) - 1)
  then Raise ValueError
  else
    Ok (mkCategorical labels
          (map (fun mi : bool * nat => if fst mi then None
                          else nth_error labels (snd mi - 1)%nat)
               (combine na_mask ids))).

(** [pd.qcut(x, q, labels=labels, duplicates=...)], [q] an integer. *)
Definition qcut (x : column) (q : Z) (labels : list Z)
    (duplicates_drop : bool) : result Categorical :=
  let quantiles := linspace 0 1 (Z.to_nat (q + 1)) in
  let bins := quantile x quantiles in
  _bins_to_cuts x bins labels true duplicates_drop.

Definition nanmin (x : column) : cell :=
  match sort_by Qle_bool (dropna x) with
  | [] => None
  | v :: _ => Some v
  end.

Definition nanmax (x : column) : cell :=
  match rev (sort_by Qle_bool (dropna x)) with
  | [] => None
  | v :: _ => Some v
  end.

(** The end-point adjustment of [pd.cut] when all values coincide:
    [0.001 * abs(m) if m != 0 else 0.001]. *)
Definition same_value_adjust (m : Q) : Q :=
  if Qeq_bool m 0 then (1 # 1000)%Q else ((1 # 1000) * Qabs m)%Q.

(** The edges [pd.cut] builds from an integer number of bins
    ([right=True]).  Its test for infinite end points never fires on
    rational values. *)
Definition _nbins_to_bins (x : column) (nbins : Z) : result (list cell) :=
  if nbins <? 1 then Raise ValueError
  else if (length x =? 0)%nat then Raise ValueError
  else
    match nanmin x, nanmax x with
    | Some mn, Some mx =>
        if Qeq_bool mn mx then
          let mn := (mn - same_value_adjust mn)%Q in
          let mx := (mx + same_value_adjust mx)%Q in
          Ok (map Some (linspace mn mx (Z.to_nat (nbins + 1))))
        else
          let adj := ((mx - mn) * (1 # 1000))%Q in
          match linspace mn mx (Z.to_nat (nbins + 1)) with
          | [] => Ok []
          | b0 :: bs => Ok (map Some ((b0 - adj)%Q :: bs))
          end
    | _, _ => Ok (repeat None (Z.to_nat (nbins + 1)))
    end.

(** [pd.cut(x, bins=nbins, labels=labels, duplicates=...)], [nbins] an
    integer. *)
Definition cut (x : column) (nbins : Z) (labels : list Z)
    (duplicates_drop : bool) : result Categorical :=
  bins <- _nbins_to_bins x nbins ;;
  _bins_to_cuts x bins labels false duplicates_drop.

(** [Series.rank(method='first')]: ranks 1..m of the non-missing values,
    ties broken by position; NaN stays NaN. *)
Fixpoint rank_from (all seen rest : column) : column :=
  match rest with
  | [] => []
  | c :: t =>
      match c with
      | None => None
      | Some _ =>
          num (1 + Z.of_nat (length (List.filter (fun d => cell_ltb d c) all))
                 + Z.of_nat (length (List.filter (fun d => cell_eqb d c) seen)))
      end :: rank_from all (seen ++ [c]) t
  end.

Definition rank_first (x : column) : column := rank_from x [] x.

(** [.fillna(value)] on a categorical column: the fill value must be one of
    the categories (a TypeError otherwise: cannot setitem on a Categorical
    with a new category).  pandas 2 checks this whether or not a cell is
    missing, which is what is modelled; later releases check only when a
    cell is missing.  With a missing cell all releases agree. *)
Definition Categorical_fillna (c : Categorical) (value : Z) : result Categorical :=
  if existsb (Z.eqb value) (categories c)
  then Ok (mkCategorical (categories c)
             (map (fun v => match v with None => Some value | Some _ => v end)
                  (cat_values c)))
  else Raise TypeError.

(** [pd.to_numeric(s, errors='coerce')] on a categorical of integers. *)
Definition to_numeric (c : Categorical) : list (option Z) := cat_values c.

(** [.fillna(value)] on a numeric column. *)
Definition fillna (value : Z) (s : list (option Z)) : list Z :=
  map (fun v => match v with None => value | Some z => z end) s.

(** [.clip(lower, upper)]. *)
Definition clip (lower upper : Z) (s : list Z) : list Z :=
  map (fun v => Z.min upper (Z.max lower v)) s.

(** [list(range(1, n + 1))] and [list(range(n, 0, -1))]. *)
Definition range_up (n : Z) : list Z :=
  map (fun i => Z.of_nat i + 1) (seq 0 (Z.to_nat n)).

Definition range_down (n : Z) : list Z := rev (range_up n).

(** [int(q)]: truncation toward zero. *)
Definition py_int (q : Q) : Z := Z.quot (Qnum q) (Zpos (Qden q)).

(** [str(int)]. *)
Definition py_str (z : Z) : string := NilZero.string_of_int (Z.to_int z).

(** [d.get(key, default)] on a dict. *)
Definition dict_get {V : Type} (d : gmap string V) (key : string) (dflt : V) : V :=
  default dflt (d !! key).

(** [Series.sum()]: missing values are skipped. *)
Definition series_sum (x : column) : Q := fold_right Qplus 0%Q (dropna x).

(** [Series.mean()]: NaN when no value is present. *)
Definition series_mean (x : column) : cell :=
  match dropna x with
  | [] => None
  | _ :: _ => Some (series_sum x / inject_Z (Z.of_nat (length (dropna x))))%Q
  end.

(** [Series.cumsum()]: a missing value stays missing and is skipped by the
    running sum. *)
Fixpoint cumsum_from (acc : Q) (x : column) : column :=
  match x with
  | [] => []
  | None :: t => None :: cumsum_from acc t
  | Some v :: t => Some (acc + v)%Q :: cumsum_from (acc + v)%Q t
  end.

Definition cumsum (x : column) : column := cumsum_from 0%Q x.

(** Division of numpy scalars: never raises; a zero divisor or a NaN operand
    gives a non-finite result, which is [None] here. *)
Definition np_div (a b : cell) : cell :=
  match a, b with
  | Some u, Some v => if Qeq_bool v 0 then None else Some (u / v)%Q
  | _, _ => None
  end.

Definition np_mul (a b : cell) : cell :=
  match a, b with
  | Some u, Some v => Some (u * v)%Q
  | _, _ => None
  end.

(** [a / b] on Python integers. *)
Definition py_truediv (a b : Z) : result Q :=
  if b =? 0 then Raise ZeroDivisionError else Ok (inject_Z a / inject_Z b)%Q.

(** [s.iloc[i]], a negative [i] counting from the end. *)
Definition iloc {A : Type} (s : list A) (i : Z) : result A :=
  let n := Z.of_nat (length s) in
  let j := if i <? 0 then i + n else i in
  if (j <? 0) || (n <=? j) then Raise IndexError
  else match nth_error s (Z.to_nat j) with
       | Some v => Ok v
       | None => Raise IndexError
       end.

(** [np.percentile(a, p)], linear interpolation.  NaN as soon as one value is
    missing; on an empty array it is taken to raise (older numpy raises
    IndexError, newer numpy warns and returns NaN). *)
Definition percentile (a : column) (p : Q) : result cell :=
  match a with
  | [] => Raise IndexError
  | _ :: _ =>
      if existsb (fun c => match c with None => true | Some _ => false end) a
      then Ok None
      else Ok (get_score (sort_by Qle_bool (dropna a)) (p / 100)%Q)
  end.

(** [Series.unique()] on a column of strings. *)
Fixpoint unique_strings (seen : list string) (l : list string) : list string :=
  match l with
  | [] => []
  | s :: t =>
      if existsb (String.eqb s) seen then unique_strings seen t
      else s :: unique_strings (s :: seen) t
  end.

(** ** Data model *)

Record Order : Type := mkOrder {
  o_order_id : string;
  o_customer_id : string;
  order_purchase_timestamp : Z          (* seconds *)
}.

(** [payment_value] is a float64 column: a value may be missing (NaN).  An
    integer-typed column fits as long as its sums stay below 2^63, where
    they would wrap. *)
Record Payment : Type := mkPaymentCell {
  p_order_id : string;
  p_payment_value : cell
}.

(** A payment whose value is present. *)
Definition mkPayment (id : string) (value : Q) : Payment :=
  mkPaymentCell id (Some value).

(** A row of the merged orders-payments frame. *)
Record MergedRow : Type := mkMerged {
  order_id : string;
  m_customer_id : string;
  order_date : Z;
  payment_value : cell
}.

Record CustomerMetrics : Type := mkMetrics {
  customer_id : string;
  recency : cell;
  frequency : cell;
  monetary : cell
}.

Record ScoredCustomer : Type := mkScored {
  metrics : CustomerMetrics;
  r_score : Z;
  f_score : Z;
  m_score : Z;
  rfm_score : string
}.

Record SegmentedCustomer : Type := mkSegmented {
  scored : ScoredCustomer;
  segment : string
}.

(** The enterprise analyzer also adds a [segment_priority] column. *)
Record PrioritizedCustomer : Type := mkPrioritized {
  segmented : SegmentedCustomer;
  segment_priority : option Z
}.

(** The score columns attached to the rows, with the composite
    [rfm_score = str(int(r)) + str(int(f)) + str(int(m))]. *)
Definition with_scores (rfm : list CustomerMetrics) (r f m : list Z)
    : list ScoredCustomer :=
  map (fun x : CustomerMetrics * (Z * (Z * Z)) =>
         let '(row, (rs, (fs, ms))) := x in
         mkScored row rs fs ms (py_str rs ++ py_str fs ++ py_str ms)%string)
      (combine rfm (combine r (combine f m))).

(** ** The simple analyzer, [rfm_analysis.py] *)

Module RFMAnalyzer.

(** [assign_scores]: each of the three columns has its own [try]. *)
Definition assign_scores (rfm_df : list CustomerMetrics)
    : result (list ScoredCustomer) :=
  let rfm := rfm_df in
  r <- try_except
         (qcut (map recency rfm) 5 [5; 4; 3; 2; 1] true)
         [ValueError; TypeError]
         (c <- cut (map recency rfm) 5 [5; 4; 3; 2; 1] true ;;
          Categorical_fillna c 3) ;;
  f <- try_except
         (qcut (rank_first (map frequency rfm)) 5 [1; 2; 3; 4; 5] true)
         [ValueError; TypeError]
         (c <- cut (map frequency rfm) 5 [1; 2; 3; 4; 5] true ;;
          Categorical_fillna c 3) ;;
  m <- try_except
         (qcut (map monetary rfm) 5 [1; 2; 3; 4; 5] true)
         [ValueError; TypeError]
         (c <- cut (map monetary rfm) 5 [1; 2; 3; 4; 5] true ;;
          Categorical_fillna c 3) ;;
  let r_score := clip 1 5 (fillna 3 (to_numeric r)) in
  let f_score := clip 1 5 (fillna 3 (to_numeric f)) in
  let m_score := clip 1 5 (fillna 3 (to_numeric m)) in
  Ok (with_scores rfm r_score f_score m_score).

Definition segment_customers (row : ScoredCustomer) : string :=
  if existsb (String.eqb (rfm_score row))
       ["555"; "554"; "544"; "545"; "454"; "455"; "445"]
  then "Champions"
  else if (r_score row >=? 4) && (f_score row >=? 3) then "Loyal Customers"
  else if (r_score row >=? 3) && (m_score row >=? 4) then "Big Spenders"
  else if (r_score row <=? 2) && (f_score row >=? 3) then "At Risk"
  else if r_score row <=? 2 then "Lost"
  else "Regular".

Definition create_segments (rfm_scores : list ScoredCustomer)
    : list SegmentedCustomer :=
  let rfm := rfm_scores in
  map (fun row => mkSegmented row (segment_customers row)) rfm.

End RFMAnalyzer.

(** ** Results of the statistics stage *)

Record SegmentStats : Type := mkSegmentStats {
  count : Z;
  percentage : Q;
  revenue : Q;
  revenue_percentage : cell;
  avg_ltv : cell;
  avg_recency : cell;
  avg_frequency : cell;
  top_percentile_ltv : cell;
  churn_risk : string
}.

Record ParetoStats : Type := mkPareto {
  customers_for_80_revenue_pct : cell;
  revenue_from_top_20_customers_pct : cell;
  pareto_efficiency : cell
}.

Record SegmentAnalysis : Type := mkAnalysis {
  total_customers : Z;
  total_revenue : Q;
  segments : gmap string SegmentStats;
  pareto_analysis : ParetoStats
}.

(** ** The enterprise analyzer, [enhanced_rfm.py] *)

(** [config.analytics.segment_thresholds], as [core/config.py] sets it. *)
Definition default_segment_thresholds : gmap string Z :=
  <["champion_r_min" := 4]> (<["champion_f_min" := 4]> (<["champion_m_min" := 4]>
  (<["at_risk_r_max" := 2]> (<["lost_r_max" := 1]> ∅)))).

Module EnterpriseRFMAnalyzer.

(** [n_bins = min(5, max(2, n_customers // 20))]. *)
Definition n_bins_for (n_customers : Z) : Z :=
  Z.min 5 (Z.max 2 (n_customers / 20)).

Section Analyzer.
(** [self.reference_date], [self.segment_thresholds], and the clock
    [datetime.now()] reads. *)
Context (reference_date : Z) (segment_thresholds : gmap string Z) (now : Z).

(** [orders_df.merge(payments_df, on='order_id', how='inner')]. *)
Definition merge (orders_df : list Order) (payments_df : list Payment)
    : list MergedRow :=
  flat_map
    (fun o =>
       map (fun p => mkMerged (o_order_id o) (o_customer_id o)
                       (order_purchase_timestamp o) (p_payment_value p))
           (List.filter (fun p => String.eqb (p_order_id p) (o_order_id o))
              payments_df))
    orders_df.

Definition _prepare_data (orders_df : list Order) (payments_df : list Payment)
    : list MergedRow :=
  let merged_df := merge orders_df payments_df in
  let future_mask := fun row => now <? order_date row in
  let merged_df :=
    if existsb future_mask merged_df
    then List.filter (fun row => negb (future_mask row)) merged_df
    else merged_df in
  let invalid_payments := fun row => cell_leb (payment_value row) (Some 0%Q) in
  let merged_df :=
    if existsb invalid_payments merged_df
    then List.filter (fun row => negb (invalid_payments row)) merged_df
    else merged_df in
  merged_df.

(** The keys of [df.groupby('customer_id')], sorted. *)
Definition group_keys (df : list MergedRow) : list string :=
  sort_by String.leb (unique_strings [] (map m_customer_id df)).

Definition group (df : list MergedRow) (key : string) : list MergedRow :=
  List.filter (fun row => String.eqb (m_customer_id row) key) df.

(** [(self.reference_date - x.max()).days]. *)
Definition recency_days (dates : list Z) : Z :=
  (reference_date - fold_right Z.max (hd 0 dates) dates) / 86400.

(** [_calculate_rfm_metrics]: one row per customer.  The detail columns
    merged in afterwards ([first_order], [last_order], [avg_order_value],
    [lifetime_days]) join one-to-one on [customer_id]; they add no row
    and are not carried here. *)
Definition _calculate_rfm_metrics (df : list MergedRow) : list CustomerMetrics :=
  map (fun key =>
         let x := group df key in
         mkMetrics key
           (num (recency_days (map order_date x)))
           (num (Z.of_nat (length (map order_id x))))
           (Some (series_sum (map payment_value x))))
      (group_keys df).

(** [_assign_rfm_scores]: one [try] around the three quantile cuts; the
    handler recomputes all three columns by rank. *)
Definition _assign_rfm_scores (rfm_df : list CustomerMetrics)
    : result (list ScoredCustomer) :=
  let rfm := rfm_df in
  let n_customers := Z.of_nat (length rfm) in
  let n_bins := n_bins_for n_customers in
  scores <-
    try_except
      (r <- qcut (map recency rfm) n_bins (range_down n_bins) true ;;
       f <- qcut (rank_first (map frequency rfm)) n_bins (range_up n_bins) true ;;
       m <- qcut (map monetary rfm) n_bins (range_up n_bins) true ;;
       Ok (r, f, m))
      [ValueError]
      (r <- (c <- cut (rank_first (map recency rfm)) n_bins
                    (range_down n_bins) false ;;
             Categorical_fillna c 3) ;;
       f <- (c <- cut (rank_first (map frequency rfm)) n_bins
                    (range_up n_bins) false ;;
             Categorical_fillna c 3) ;;
       m <- (c <- cut (rank_first (map monetary rfm)) n_bins
                    (range_up n_bins) false ;;
             Categorical_fillna c 3) ;;
       Ok (r, f, m)) ;;
  let '(r, f, m) := scores in
  let post := fun c => clip 1 n_bins (fillna 3 (to_numeric c)) in
  Ok (with_scores rfm (post r) (post f) (post m)).

(** The per-row rule function of [_create_segments]. *)
Definition segment_customers (row : ScoredCustomer) : string :=
  let r := r_score row in
  let f := f_score row in
  let m := m_score row in
  if (r >=? dict_get segment_thresholds "champion_r_min" 4)
     && (f >=? dict_get segment_thresholds "champion_f_min" 4)
     && (m >=? dict_get segment_thresholds "champion_m_min" 4)
  then "Champions"
  else if (r >=? 4) && (f >=? 4) then "Loyal Customers"
  else if (r >=? 4) && (f >=? 2) then "Potential Loyalists"
  else if (r >=? 4) && (f =? 1) then "New Customers"
  else if (r >=? 3) && (f >=? 2) then "Promising"
  else if (r >=? 3) && (f =? 1) && (m >=? 4) then "Need Attention"
  else if (r <=? dict_get segment_thresholds "at_risk_r_max" 2) && (f >=? 3)
  then "At Risk"
  else if (r =? 1) && (f >=? 4) && (m >=? 4) then "Cannot Lose Them"
  else if r <=? dict_get segment_thresholds "lost_r_max" 1 then "Lost"
  else "Others".

Definition segment_priority_map : gmap string Z :=
  <["Champions" := 1]> (<["Loyal Customers" := 2]> (<["Cannot Lose Them" := 3]>
  (<["At Risk" := 4]> (<["New Customers" := 5]> (<["Potential Loyalists" := 6]>
  (<["Need Attention" := 7]> (<["Promising" := 8]> (<["Others" := 9]>
  (<["Lost" := 10]> ∅))))))))).

Definition _create_segments (rfm_df : list ScoredCustomer)
    : list PrioritizedCustomer :=
  let rfm := rfm_df in
  map (fun row =>
         let seg := segment_customers row in
         mkPrioritized (mkSegmented row seg) (segment_priority_map !! seg))
      rfm.

End Analyzer.

(** *** The statistics stage *)

Definition col_monetary (df : list PrioritizedCustomer) : column :=
  map (fun row => monetary (metrics (scored (segmented row)))) df.

Definition col_recency (df : list PrioritizedCustomer) : column :=
  map (fun row => recency (metrics (scored (segmented row)))) df.

Definition col_frequency (df : list PrioritizedCustomer) : column :=
  map (fun row => frequency (metrics (scored (segmented row)))) df.

Definition col_segment (df : list PrioritizedCustomer) : list string :=
  map (fun row => segment (segmented row)) df.

(** Order of [sort_values('monetary', ascending=False)]: larger first,
    missing values last. *)
Definition monetary_desc (a b : PrioritizedCustomer) : bool :=
  match monetary (metrics (scored (segmented a))),
        monetary (metrics (scored (segmented b))) with
  | Some u, Some v => Qle_bool v u
  | Some _, None => true
  | None, Some _ => false
  | None, None => true
  end.

Definition _calculate_pareto_distribution (segments_df : list PrioritizedCustomer)
    : result ParetoStats :=
  let sorted_customers := sort_by monetary_desc segments_df in
  let cumulative_revenue := cumsum (col_monetary sorted_customers) in
  let total_revenue := series_sum (col_monetary sorted_customers) in
  let customers_for_80_revenue :=
    Z.of_nat (length (List.filter
                        (fun c => cell_leb c (Some (total_revenue * (8 # 10))%Q))
                        cumulative_revenue)) in
  let percentage_for_80_revenue :=
    np_mul (np_div (num customers_for_80_revenue)
                   (num (Z.of_nat (length sorted_customers))))
           (num 100) in
  let top_20_customers :=
    py_int (inject_Z (Z.of_nat (length sorted_customers)) * (2 # 10))%Q in
  at_top_20 <- iloc cumulative_revenue (top_20_customers - 1) ;;
  let revenue_from_top_20 :=
    np_mul (np_div at_top_20 (Some total_revenue)) (num 100) in
  Ok (mkPareto percentage_for_80_revenue revenue_from_top_20
               (np_div revenue_from_top_20 (num 20))).

Definition segment_rows (segments_df : list PrioritizedCustomer) (seg : string)
    : list PrioritizedCustomer :=
  List.filter (fun row => String.eqb (segment (segmented row)) seg) segments_df.

(** The dict entry built for one segment in the loop of
    [_analyze_segments]. *)
Definition segment_entry (segments_df : list PrioritizedCustomer) (seg : string)
    : result SegmentStats :=
  let segment_data := segment_rows segments_df seg in
  pct <- py_truediv (Z.of_nat (length segment_data))
                    (Z.of_nat (length segments_df)) ;;
  top <- percentile (col_monetary segment_data) 90 ;;
  Ok (mkSegmentStats
        (Z.of_nat (length segment_data))
        (pct * 100)%Q
        (series_sum (col_monetary segment_data))
        (np_mul (np_div (Some (series_sum (col_monetary segment_data)))
                        (Some (series_sum (col_monetary segments_df))))
                (num 100))
        (series_mean (col_monetary segment_data))
        (series_mean (col_recency segment_data))
        (series_mean (col_frequency segment_data))
        top
        (if existsb (String.eqb seg) ["At Risk"; "Cannot Lose Them"; "Lost"]
         then "High" else "Low")).

(** The loop [for segment in segments_df['segment'].unique()]. *)
Fixpoint segment_loop (segments_df : list PrioritizedCustomer)
    (todo : list string) (acc : gmap string SegmentStats)
    : result (gmap string SegmentStats) :=
  match todo with
  | [] => Ok acc
  | seg :: rest =>
      entry <- segment_entry segments_df seg ;;
      segment_loop segments_df rest (<[seg := entry]> acc)
  end.

Definition _analyze_segments (segments_df : list PrioritizedCustomer)
    : result SegmentAnalysis :=
  per_segment <- segment_loop segments_df
                   (unique_strings [] (col_segment segments_df)) ∅ ;;
  pareto <- _calculate_pareto_distribution segments_df ;;
  Ok (mkAnalysis (Z.of_nat (length segments_df))
                 (series_sum (col_monetary segments_df))
                 per_segment pareto).

End EnterpriseRFMAnalyzer.

(** ** The two policy variants side by side *)

Inductive Policy : Type := Simple | Enterprise.

(** Score assignment: [assign_scores] or [_assign_rfm_scores]. *)
Definition score_assignment (p : Policy) (rfm_df : list CustomerMetrics)
    : result (list ScoredCustomer) :=
  match p with
  | Simple => RFMAnalyzer.assign_scores rfm_df
  | Enterprise => EnterpriseRFMAnalyzer._assign_rfm_scores rfm_df
  end.

(** K, the number of bins each scorer asks for: the literal 5 of
    [assign_scores], [n_bins] of [_assign_rfm_scores]. *)
Definition bin_count (p : Policy) (rfm_df : list CustomerMetrics) : Z :=
  match p with
  | Simple => 5
  | Enterprise => EnterpriseRFMAnalyzer.n_bins_for (Z.of_nat (length rfm_df))
  end.

(** The per-row classifier of [create_segments] or [_create_segments]. *)
Definition classify_row (p : Policy) (segment_thresholds : gmap string Z)
    (row : ScoredCustomer) : string :=
  match p with
  | Simple => RFMAnalyzer.segment_customers row
  | Enterprise => EnterpriseRFMAnalyzer.segment_customers segment_thresholds row
  end.

(** The segment column of the classified table. *)
Definition classify (p : Policy) (segment_thresholds : gmap string Z)
    (scored_df : list ScoredCustomer) : list string :=
  match p with
  | Simple => map segment (RFMAnalyzer.create_segments scored_df)
  | Enterprise =>
      map (fun row => segment (segmented row))
          (EnterpriseRFMAnalyzer._create_segments segment_thresholds scored_df)
  end.

(** ** What the specification words say, to compare the code with *)

(** The neutral score [ceil(K/2)]. *)
Definition neutral_score (K : Z) : Z := Qceiling (inject_Z K / 2).

(** The enumerated segment names of each policy. *)
Definition policy_segments (p : Policy) : list string :=
  match p with
  | Simple =>
      ["Champions"; "Loyal Customers"; "Big Spenders"; "At Risk"; "Lost";
       "Regular"]
  | Enterprise =>
      ["Champions"; "Loyal Customers"; "Potential Loyalists"; "New Customers";
       "Promising"; "Need Attention"; "At Risk"; "Cannot Lose Them"; "Lost";
       "Others"]
  end.

(** An ordered rule list, evaluated first-match-wins. *)
Definition rule : Type := (ScoredCustomer -> bool) * string.

Fixpoint first_match (rules : list rule) (catch_all : string)
    (row : ScoredCustomer) : string :=
  match rules with
  | [] => catch_all
  | (condition, name) :: rest =>
      if condition row then name else first_match rest catch_all row
  end.

Definition at_risk_condition (segment_thresholds : gmap string Z)
    (row : ScoredCustomer) : bool :=
  (r_score row <=? dict_get segment_thresholds "at_risk_r_max" 2)
  && (f_score row >=? 3).

Definition cannot_lose_condition (row : ScoredCustomer) : bool :=
  (r_score row =? 1) && (f_score row >=? 4) && (m_score row >=? 4).

(** The enterprise rules in the documented order, each with the condition
    the code tests for it. *)
Definition enterprise_rules (segment_thresholds : gmap string Z) : list rule :=
  [ (fun row =>
       (r_score row >=? dict_get segment_thresholds "champion_r_min" 4)
       && (f_score row >=? dict_get segment_thresholds "champion_f_min" 4)
       && (m_score row >=? dict_get segment_thresholds "champion_m_min" 4),
     "Champions");
    (fun row => (r_score row >=? 4) && (f_score row >=? 4), "Loyal Customers");
    (fun row => (r_score row >=? 4) && (f_score row >=? 2), "Potential Loyalists");
    (fun row => (r_score row >=? 4) && (f_score row =? 1), "New Customers");
    (fun row => (r_score row >=? 3) && (f_score row >=? 2), "Promising");
    (fun row => (r_score row >=? 3) && (f_score row =? 1) && (m_score row >=? 4),
     "Need Attention");
    (at_risk_condition segment_thresholds, "At Risk");
    (cannot_lose_condition, "Cannot Lose Them");
    (fun row => r_score row <=? dict_get segment_thresholds "lost_r_max" 1,
     "Lost") ].

(** The size of the smallest prefix of [sorted_monetary] whose sum reaches
    80% of the total. *)
Definition smallest_prefix_for_80 (sorted_monetary : list Q) : nat :=
  let total := fold_right Qplus 0%Q sorted_monetary in
  match find (fun k => Qle_bool (total * (8 # 10))%Q
                         (fold_right Qplus 0%Q (firstn k sorted_monetary)))
             (seq 0 (S (length sorted_monetary))) with
  | Some k => k
  | None => length sorted_monetary
  end.

(** That prefix as a percentage of the customer population. *)
Definition customers_for_80_spec (segments_df : list PrioritizedCustomer) : Q :=
  let sorted_monetary :=
    dropna (EnterpriseRFMAnalyzer.col_monetary
              (sort_by EnterpriseRFMAnalyzer.monetary_desc segments_df)) in
  (inject_Z (Z.of_nat (smallest_prefix_for_80 sorted_monetary))
   / inject_Z (Z.of_nat (length segments_df)) * 100)%Q.

(** ** Concrete tables used below *)

Definition metrics_row (i : nat) (r f m : Z) : CustomerMetrics :=
  mkMetrics (py_str (Z.of_nat i)) (num r) (num f) (num m).

(** Three customers, all values distinct. *)
Definition three_customers : list CustomerMetrics :=
  [metrics_row 0 1 1 10; metrics_row 1 2 2 20; metrics_row 2 3 3 30].

(** Twenty customers with recency 1..20 days, one order each, monetary
    10, 20, .., 200. *)
Definition twenty_customers : list CustomerMetrics :=
  map (fun i => metrics_row i (Z.of_nat i + 1) 1 (10 * Z.of_nat i + 10)) (seq 0 20).

(** Eighty customers: the first has no recency (NaN), the other 79 all have
    recency 10; one order and monetary 50 each. *)
Definition eighty_customers : list CustomerMetrics :=
  mkMetrics "0" None (num 1) (num 50)
  :: map (fun i => metrics_row i 10 1 50) (seq 1 79).

(** A hundred customers with recency 1..100 days, one to seven orders,
    monetary 10, 20, .., 1000. *)
Definition hundred_customers : list CustomerMetrics :=
  map (fun i => metrics_row i (Z.of_nat i + 1) (Z.of_nat i mod 7 + 1)
                  (10 * Z.of_nat i + 10))
      (seq 0 100).

(** Two customers: the first has no recency (NaN). *)
Definition two_customers : list CustomerMetrics :=
  [mkMetrics "0" None (num 1) (num 10); metrics_row 1 5 1 20].

Definition segmented_row (id : string) (m : Z) : PrioritizedCustomer :=
  mkPrioritized
    (mkSegmented (mkScored (mkMetrics id (num 30) (num 1) (num m)) 3 3 3 "333")
                 "Promising")
    (Some 8).

(** One customer with monetary 100. *)
Definition single_customer : list PrioritizedCustomer := [segmented_row "0" 100].

(** Two customers with monetary 60 and 40. *)
Definition sixty_forty : list PrioritizedCustomer :=
  [segmented_row "0" 60; segmented_row "1" 40].

(** ** More of the code: helpers, validation, callers *)

(** The sum of [w] over the rows of a frame. *)
Definition weighted_sum {A : Type} (w : A -> Q) (l : list A) : Q :=
  fold_right Qplus 0%Q (map w l).

(** Bin edges that are pairwise different, as [unique] compares them. *)
Definition cells_distinct (l : list cell) : Prop :=
  ForallOrdPairs (fun a b => cell_same b a = false) l.

(** A column with at least one value that is not missing. *)
Definition has_value (x : column) : Prop := dropna x <> [].





(** *** The simple analyzer's metrics and its caller in [main.py] *)

(** [RFMAnalyzer.calculate_rfm]: the same join and grouping as the enterprise
    analyzer, with no cleaning in between. *)
Definition calculate_rfm (reference_date : Z) (orders_df : list Order)
    (payments_df : list Payment) : list CustomerMetrics :=
  let df := EnterpriseRFMAnalyzer.merge orders_df payments_df in
  map (fun key =>
         let x := EnterpriseRFMAnalyzer.group df key in
         mkMetrics key
           (num ((reference_date
                  - fold_right Z.max (hd 0 (map order_date x)) (map order_date x))
                 / 86400))
           (num (Z.of_nat (length (map order_id x))))
           (Some (series_sum (map payment_value x))))
      (EnterpriseRFMAnalyzer.group_keys df).

(** [pd.to_datetime(orders['order_purchase_timestamp']).max()]. *)
Definition last_order_date (orders : list Order) : Z :=
  fold_right Z.max (hd 0 (map order_purchase_timestamp orders))
             (map order_purchase_timestamp orders).

(** [run_rfm_analysis] of [main.py]: the reference date is the day after the
    last order.  The summary it prints is left out. *)
Definition run_rfm_analysis (orders : list Order) (payments : list Payment)
    : result (list SegmentedCustomer) :=
  let reference_date := last_order_date orders + 86400 in
  let rfm_df := calculate_rfm reference_date orders payments in
  rfm_scores <- RFMAnalyzer.assign_scores rfm_df ;;
  Ok (RFMAnalyzer.create_segments rfm_scores).

(** *** Business checks of the enterprise analyzer *)

Record JoinIntegrity : Type := mkJoinIntegrity {
  orders_with_payments : nat;
  orders_without_payments : nat;
  payments_without_orders : nat;
  join_success_ratio : Q;
  is_acceptable : bool
}.

(** [_validate_join_integrity]: sets of order ids on both sides. *)
Definition _validate_join_integrity (orders_df : list Order)
    (payments_df : list Payment) : JoinIntegrity :=
  let orders_ids : gset string := list_to_set (map o_order_id orders_df) in
  let payments_ids : gset string := list_to_set (map p_order_id payments_df) in
  let intersection := orders_ids ∩ payments_ids in
  let orders_only := orders_ids ∖ payments_ids in
  let payments_only := payments_ids ∖ orders_ids in
  let join_ratio :=
    if decide (orders_ids = ∅) then 0%Q
    else (inject_Z (Z.of_nat (size intersection))
          / inject_Z (Z.of_nat (size orders_ids)))%Q in
  mkJoinIntegrity (size intersection) (size orders_only) (size payments_only)
    join_ratio (Qle_bool (95 # 100) join_ratio).

Record MonetaryCheck : Type := mkMonetaryCheck {
  negative_payments : nat;
  zero_payments : nat;
  extreme_payments : nat;
  min_payment : cell;
  max_payment : cell;
  avg_payment : cell
}.

(** [_validate_monetary_values]. *)
Definition _validate_monetary_values (payments_df : list Payment) : MonetaryCheck :=
  let values := map p_payment_value payments_df in
  mkMonetaryCheck
    (length (List.filter (fun v => cell_ltb v (Some 0%Q)) values))
    (length (List.filter (fun v => cell_eqb v (Some 0%Q)) values))
    (length (List.filter (fun v => cell_ltb (Some 100000%Q) v) values))
    (nanmin values)
    (nanmax values)
    (series_mean values).

(** *** Recommendations *)

(** The list [generate_recommendations] builds for one segment. *)
Definition segment_recommendations (segment : string) : list string :=
  if String.eqb segment "Champions" then
    ["Reward with loyalty programs and exclusive offers";
     "Use for referral programs and testimonials";
     "Provide excellent customer service to retain";
     "Offer early access to new products"]
  else if String.eqb segment "At Risk" then
    ["Launch win-back campaigns with personalized offers";
     "Conduct satisfaction surveys to identify issues";
     "Provide limited-time discounts to re-engage";
     "Implement retention campaigns"]
  else if String.eqb segment "Lost" then
    ["Run aggressive win-back campaigns";
     "Offer significant discounts or incentives";
     "Research reasons for churn";
     "Consider remarketing campaigns"]
  else if String.eqb segment "New Customers" then
    ["Focus on onboarding and education";
     "Provide excellent first experience";
     "Implement nurture campaigns";
     "Offer second-purchase incentives"]
  else [].

(** [generate_recommendations]: a loop over the per-segment dictionary; a
    segment gets an entry only when its list is not empty. *)
Definition generate_recommendations (segment_stats : SegmentAnalysis)
    : gmap string (list string) :=
  map_fold
    (fun segment (stats : SegmentStats) recommendations =>
       match segment_recommendations segment with
       | [] => recommendations
       | recs => <[segment := recs]> recommendations
       end)
    ∅ (segments segment_stats).

(** *** Data validation, [data_quality/validator.py] *)

(** The values a rule stores under [metrics]. *)
Inductive metric_value : Type :=
  | MetricInt (z : Z)
  | MetricFloat (q : Q)
  | MetricStr (s : string).

Record ValidationResult : Type := mkValidationResult {
  is_valid : bool;
  errors : list string;
  warnings : list string;
  result_metrics : gmap string metric_value
}.

(** What the validation rules read of a column: its dtype and, per row,
    whether the value is null. *)
Record Series : Type := mkSeries {
  dtype : string;
  isnull : list bool
}.

Record DataFrame : Type := mkDataFrame {
  columns : gmap string Series;
  n_rows : nat                     (* [len(df)] *)
}.

(** The rule classes the analyzers use.  ([RangeRule] and [PatternRule] are
    not modelled.) *)
Inductive ValidationRule : Type :=
  | NotNullRule (column : string) (max_null_percentage : Q)
  | DataTypeRule (column : string) (expected_type : string).

(** [str.lower()] on ASCII letters. *)
Definition ascii_lower (c : Ascii.ascii) : Ascii.ascii :=
  let n := Ascii.nat_of_ascii c in
  if ((65 <=? n) && (n <=? 90))%nat then Ascii.ascii_of_nat (n + 32) else c.

Fixpoint str_lower (s : string) : string :=
  match s with
  | EmptyString => EmptyString
  | String c t => String (ascii_lower c) (str_lower t)
  end.

Module Validation.

(** [ValidationResult(True)]. *)
Definition new_result : ValidationResult := mkValidationResult true [] [] ∅.

Definition add_error (self : ValidationResult) (message : string) : ValidationResult :=
  mkValidationResult false (errors self ++ [message]) (warnings self)
    (result_metrics self).

Definition add_warning (self : ValidationResult) (message : string) : ValidationResult :=
  mkValidationResult (is_valid self) (errors self) (warnings self ++ [message])
    (result_metrics self).

(** [self.merge(other)]; [metrics.update] lets the other result win on a
    shared key. *)
Definition merge (self other : ValidationResult) : ValidationResult :=
  mkValidationResult
    (if negb (is_valid other) then false else is_valid self)
    (errors self ++ errors other)
    (warnings self ++ warnings other)
    (result_metrics other ∪ result_metrics self).

Definition set_metric (self : ValidationResult) (key : string) (v : metric_value)
    : ValidationResult :=
  mkValidationResult (is_valid self) (errors self) (warnings self)
    (<[key := v]> (result_metrics self)).

(** The severity every rule is built with: the constructors never pass
    another one to [ValidationRule.__init__]. *)
Definition severity : string := "error".

Definition type_mapping : list (string * list string) :=
  [("object", ["string"; "str"; "text"]);
   ("int64", ["int"; "integer"]);
   ("float64", ["float"; "numeric"; "decimal"]);
   ("datetime64[ns]", ["datetime"; "timestamp"]);
   ("bool", ["boolean"])].

Section Rules.
(** How Python formats a float with [:.2f] and with [str]. *)
Context (format_2f str_float : Q -> string).

(** [NotNullRule.validate(df)]. *)
Definition NotNullRule_validate (column : string) (max_null_percentage : Q)
    (df : DataFrame) : ValidationResult :=
  let result := new_result in
  let col := column in
  match columns df !! col with
  | None => add_error result ("Column " ++ col ++ " not found in DataFrame")
  | Some series =>
      let null_count := length (List.filter (fun b : bool => b) (isnull series)) in
      let total_count := n_rows df in
      let null_percentage :=
        if (0 <? total_count)%nat
        then (inject_Z (Z.of_nat null_count) / inject_Z (Z.of_nat total_count) * 100)%Q
        else 0%Q in
      let result :=
        set_metric result (col ++ "_null_count") (MetricInt (Z.of_nat null_count)) in
      let result :=
        set_metric result (col ++ "_null_percentage") (MetricFloat null_percentage) in
      if Qltb max_null_percentage null_percentage then
        if String.eqb severity "error" then
          add_error result
            ("Column " ++ col ++ " has " ++ format_2f null_percentage
             ++ "% null values (max allowed: " ++ str_float max_null_percentage
             ++ "%)")
        else
          add_warning result
            ("Column " ++ col ++ " has " ++ format_2f null_percentage
             ++ "% null values")
      else result
  end.

(** [DataTypeRule.validate(df)]. *)
Definition DataTypeRule_validate (column expected_type : string) (df : DataFrame)
    : ValidationResult :=
  let result := new_result in
  let col := column in
  match columns df !! col with
  | None => add_error result ("Column " ++ col ++ " not found in DataFrame")
  | Some series =>
      let actual_type := dtype series in
      let is_valid_type :=
        existsb (fun entry : string * list string =>
                   String.prefix (fst entry) actual_type
                   && existsb (String.eqb (str_lower expected_type))
                        (fst entry :: snd entry))
                type_mapping in
      let result :=
        if negb is_valid_type then
          add_error result
            ("Column " ++ col ++ " has type " ++ actual_type ++ ", expected "
             ++ expected_type)
        else result in
      set_metric result (col ++ "_actual_type") (MetricStr actual_type)
  end.

Definition rule_validate (rule : ValidationRule) (df : DataFrame) : ValidationResult :=
  match rule with
  | NotNullRule column max_null_percentage =>
      NotNullRule_validate column max_null_percentage df
  | DataTypeRule column expected_type =>
      DataTypeRule_validate column expected_type df
  end.

(** [DataValidator.validate]: every rule is run and merged into the overall
    result.  (The two rule classes above raise nothing, so the [except]
    branch of the source is not entered.) *)
Definition validate (rules : list ValidationRule) (df : DataFrame) : ValidationResult :=
  fold_left (fun overall_result rule => merge overall_result (rule_validate rule df))
            rules new_result.

(** [DataValidator.validate_or_raise]. *)
Definition validate_or_raise (rules : list ValidationRule) (df : DataFrame)
    : result ValidationResult :=
  let result := validate rules df in
  if negb (is_valid result) then Raise DataValidationError else Ok result.

End Rules.

End Validation.

(** [EnterpriseRFMAnalyzer._setup_validator]: the rules of the RFM
    validator, in the order they are added. *)
Definition _setup_validator : list ValidationRule :=
  [NotNullRule "customer_id" 0; NotNullRule "order_id" 0;
   NotNullRule "order_purchase_timestamp" 0;
   DataTypeRule "customer_id" "string"; DataTypeRule "order_id" "string"].


(** * Properties *)

(** ** The binning primitives on small columns *)

(** Ten distinct values in five quantile bins, labels descending: two values
    per bin, the smallest values get the label 5. *)
Example qcut_ten_values :
  qcut (map num [1; 2; 3; 4; 5; 6; 7; 8; 9; 10]) 5 [5; 4; 3; 2; 1] true
  = Ok (mkCategorical [5; 4; 3; 2; 1]
          (map Some [5; 5; 4; 4; 3; 3; 2; 2; 1; 1])).
Proof. vm_compute. reflexivity. Qed.

(** Equal values give equal quantile edges; once the duplicates are dropped
    the labels no longer fit and the cut raises. *)
Example qcut_equal_values :
  qcut (map num [7; 7; 7; 7]) 5 [5; 4; 3; 2; 1] true = Raise ValueError.
Proof. vm_compute. reflexivity. Qed.

(** [pd.cut] on the same column: five equal-width bins around 7, which falls
    in the middle one.  A missing value stays missing. *)
Example cut_equal_values :
  cut (map num [7; 7; 7; 7] ++ [None]) 5 [5; 4; 3; 2; 1] true
  = Ok (mkCategorical [5; 4; 3; 2; 1] [Some 3; Some 3; Some 3; Some 3; None]).
Proof. vm_compute. reflexivity. Qed.

Example cut_empty : cut [] 5 [5; 4; 3; 2; 1] true = Raise ValueError.
Proof. reflexivity. Qed.

Example rank_first_ties :
  rank_first (map num [3; 1; 3; 2] ++ [None] ++ map num [1])
  = [num 4; num 1; num 5; num 3; None; num 2].
Proof. vm_compute. reflexivity. Qed.

(** ** The result monad *)

Lemma bind_Ok {A B : Type} (c : result A) (k : A -> result B) (b : B) :
  bind c k = Ok b -> exists a, c = Ok a /\ k a = Ok b.
Proof.
  destruct c as [a | e]; simpl; intros H; [exists a; auto | discriminate].
Qed.

Lemma try_except_Ok {A : Type} (body handler : result A) (classes : list exn) (a : A) :
  try_except body classes handler = Ok a -> body = Ok a \/ handler = Ok a.
Proof.
  unfold try_except. destruct body as [b | e]; [auto |].
  destruct (existsb (exn_eqb e) classes); [auto | discriminate].
Qed.

(** ** Lengths of the columns the primitives return *)

Lemma bins_to_cuts_length x bins labels lowest dup c :
  _bins_to_cuts x bins labels lowest dup = Ok c ->
  length (cat_values c) = length x.
Proof.
  unfold _bins_to_cuts. intros H.
  apply bind_Ok in H as (bins' & _ & H).
  destruct (has_duplicates labels); [discriminate |].
  destruct (negb _); [discriminate |].
  injection H as <-. simpl.
  rewrite !length_map, !length_combine, !length_map, !length_combine, !length_map.
  lia.
Qed.

Lemma qcut_length x q labels dup c :
  qcut x q labels dup = Ok c -> length (cat_values c) = length x.
Proof. apply bins_to_cuts_length. Qed.

Lemma cut_length x nbins labels dup c :
  cut x nbins labels dup = Ok c -> length (cat_values c) = length x.
Proof.
  unfold cut. intros H. apply bind_Ok in H as (bins & _ & H).
  exact (bins_to_cuts_length _ _ _ _ _ _ H).
Qed.

Lemma Categorical_fillna_length c value c' :
  Categorical_fillna c value = Ok c' ->
  length (cat_values c') = length (cat_values c).
Proof.
  unfold Categorical_fillna. destruct (existsb _ _); [| discriminate].
  intros H. injection H as <-. simpl. apply length_map.
Qed.

Lemma rank_from_length all seen rest :
  length (rank_from all seen rest) = length rest.
Proof.
  revert seen. induction rest as [| c t IH]; intros seen; simpl; [reflexivity |].
  now rewrite IH.
Qed.

Lemma rank_first_length x : length (rank_first x) = length x.
Proof. apply rank_from_length. Qed.

Lemma cut_fillna_length x nbins labels dup value c :
  (c0 <- cut x nbins labels dup ;; Categorical_fillna c0 value) = Ok c ->
  length (cat_values c) = length x.
Proof.
  intros H. apply bind_Ok in H as (c0 & Hcut & Hfill).
  rewrite (Categorical_fillna_length _ _ _ Hfill). eapply cut_length; eauto.
Qed.

(** The post-processing [.fillna(3).clip(1, K)]. *)
Lemma clip_range lower upper s :
  lower <= upper -> Forall (fun v => lower <= v <= upper) (clip lower upper s).
Proof.
  intros Hle. unfold clip. apply Forall_forall. intros v Hin.
  apply in_map_iff in Hin as (u & <- & _). lia.
Qed.

Lemma post_length lower upper value s :
  length (clip lower upper (fillna value s)) = length s.
Proof. unfold clip, fillna. now rewrite !length_map. Qed.

(** ** Rows of [with_scores] *)

Lemma with_scores_In rfm r f m row :
  In row (with_scores rfm r f m) ->
  In (r_score row) r /\ In (f_score row) f /\ In (m_score row) m.
Proof.
  unfold with_scores. intros H.
  apply in_map_iff in H as ([x [rs [fs ms]]] & <- & Hin). simpl.
  apply in_combine_r in Hin.
  pose proof (in_combine_l _ _ _ _ Hin) as Hr.
  apply in_combine_r in Hin.
  pose proof (in_combine_l _ _ _ _ Hin) as Hf.
  apply in_combine_r in Hin. auto.
Qed.

Lemma with_scores_length rfm r f m :
  length r = length rfm -> length f = length rfm -> length m = length rfm ->
  length (with_scores rfm r f m) = length rfm.
Proof.
  intros Hr Hf Hm. unfold with_scores.
  rewrite length_map, !length_combine. lia.
Qed.

Lemma with_scores_range rfm r f m lower upper :
  Forall (fun v => lower <= v <= upper) r ->
  Forall (fun v => lower <= v <= upper) f ->
  Forall (fun v => lower <= v <= upper) m ->
  Forall (fun row => lower <= r_score row <= upper
                     /\ lower <= f_score row <= upper
                     /\ lower <= m_score row <= upper)
         (with_scores rfm r f m).
Proof.
  intros Hr Hf Hm. apply Forall_forall. intros row Hin.
  apply with_scores_In in Hin as (Ir & If & Im).
  rewrite Forall_forall in Hr, Hf, Hm. auto.
Qed.

Lemma n_bins_for_range n :
  2 <= EnterpriseRFMAnalyzer.n_bins_for n <= 5.
Proof. unfold EnterpriseRFMAnalyzer.n_bins_for. lia. Qed.

(** ** Score assignment *)

Lemma simple_column_length x x' labels c :
  length x' = length x ->
  try_except (qcut x 5 labels true) [ValueError; TypeError]
    (c0 <- cut x' 5 labels true ;; Categorical_fillna c0 3) = Ok c ->
  length (cat_values c) = length x.
Proof.
  intros Hlen H. apply try_except_Ok in H as [H | H].
  - eapply qcut_length; eauto.
  - rewrite <- Hlen. eapply cut_fillna_length; eauto.
Qed.

Lemma assign_scores_sound rfm_df out :
  RFMAnalyzer.assign_scores rfm_df = Ok out ->
  length out = length rfm_df
  /\ Forall (fun row => 1 <= r_score row <= 5 /\ 1 <= f_score row <= 5
                        /\ 1 <= m_score row <= 5) out.
Proof.
  unfold RFMAnalyzer.assign_scores. intros H.
  apply bind_Ok in H as (r & Hr & H).
  apply bind_Ok in H as (f & Hf & H).
  apply bind_Ok in H as (m & Hm & H).
  injection H as <-.
  apply simple_column_length in Hr; [| reflexivity].
  apply simple_column_length in Hf; [| now rewrite rank_first_length].
  apply simple_column_length in Hm; [| reflexivity].
  rewrite rank_first_length in Hf. rewrite length_map in Hr, Hf, Hm.
  split.
  - apply with_scores_length; now rewrite post_length.
  - apply with_scores_range; apply clip_range; lia.
Qed.

Lemma _assign_rfm_scores_sound rfm_df out :
  EnterpriseRFMAnalyzer._assign_rfm_scores rfm_df = Ok out ->
  let K := EnterpriseRFMAnalyzer.n_bins_for (Z.of_nat (length rfm_df)) in
  length out = length rfm_df
  /\ Forall (fun row => 1 <= r_score row <= K /\ 1 <= f_score row <= K
                        /\ 1 <= m_score row <= K) out.
Proof.
  intros H K. unfold EnterpriseRFMAnalyzer._assign_rfm_scores in H. fold K in H.
  pose proof (n_bins_for_range (Z.of_nat (length rfm_df))) as HK. fold K in HK.
  apply bind_Ok in H as ([[r f] m] & Hscores & H).
  injection H as <-.
  assert (Hlen : length (cat_values r) = length rfm_df
                 /\ length (cat_values f) = length rfm_df
                 /\ length (cat_values m) = length rfm_df).
  { apply try_except_Ok in Hscores as [H | H].
    - apply bind_Ok in H as (r0 & Hr & H).
      apply bind_Ok in H as (f0 & Hf & H).
      apply bind_Ok in H as (m0 & Hm & H).
      injection H as -> -> ->.
      apply qcut_length in Hr, Hf, Hm.
      rewrite rank_first_length in Hf. rewrite length_map in Hr, Hf, Hm. auto.
    - apply bind_Ok in H as (r0 & Hr & H).
      apply bind_Ok in H as (f0 & Hf & H).
      apply bind_Ok in H as (m0 & Hm & H).
      injection H as -> -> ->.
      apply cut_fillna_length in Hr, Hf, Hm.
      rewrite rank_first_length, length_map in Hr, Hf, Hm. auto. }
  destruct Hlen as (Lr & Lf & Lm). split.
  - apply with_scores_length; now rewrite post_length.
  - apply with_scores_range; apply clip_range; lia.
Qed.

(** C1.  Whatever the metrics table, and whichever of the quantile path and
    the fallback path produced the columns, a table returned by score
    assignment has one row per customer, and on every row each of [r_score],
    [f_score], [m_score] is an integer between 1 and K, where K is the bin
    count in use (5 in the simple variant, [n_bins] in the enterprise one). *)
Theorem scores_within_bin_range (p : Policy) (rfm_df : list CustomerMetrics)
    (out : list ScoredCustomer) :
  score_assignment p rfm_df = Ok out ->
  length out = length rfm_df
  /\ Forall (fun row => 1 <= r_score row <= bin_count p rfm_df
                        /\ 1 <= f_score row <= bin_count p rfm_df
                        /\ 1 <= m_score row <= bin_count p rfm_df) out.
Proof.
  destruct p; simpl; intros H.
  - now apply assign_scores_sound.
  - now apply _assign_rfm_scores_sound.
Qed.

Lemma scores_within_bin_range_witness :
  exists out,
    score_assignment Enterprise three_customers = Ok out
    /\ length out = length three_customers
    /\ Forall (fun row => 1 <= r_score row <= 2 /\ 1 <= f_score row <= 2
                          /\ 1 <= m_score row <= 2) out.
Proof.
  eexists. split; [vm_compute; reflexivity |].
  apply (scores_within_bin_range Enterprise three_customers).
  vm_compute. reflexivity.
Defined.

(** The fallback path at work in the simple scorer: with a single customer no
    quantile cut is possible, every column goes through [pd.cut], and the
    scores are 3, 3, 3. *)
Example assign_scores_single_customer :
  option_map (fun row => (r_score row, f_score row, m_score row, rfm_score row))
    (match RFMAnalyzer.assign_scores [metrics_row 0 5 1 100] with
     | Ok out => hd_error out
     | Raise _ => None
     end)
  = Some (3, 3, 3, "333").
Proof. vm_compute. reflexivity. Qed.

(** In the simple scorer, where K is always 5, a recency that stays missing
    after the fallback is imputed as 3, which is [ceil(5/2)]. *)
Example assign_scores_imputes_neutral :
  (match RFMAnalyzer.assign_scores two_customers with
   | Ok out => option_map r_score (hd_error out)
   | Raise _ => None
   end) = Some 3
  /\ neutral_score 5 = 3.
Proof. split; vm_compute; reflexivity. Qed.

(** ** The bin count *)


(** ** The imputed score *)

(** C3.  On eighty customers (K = 4) of whom one has no recency and the
    others share one recency, the quantile cut fails, the rank cut leaves
    the first row's [r_score] missing, and the value imputed there is 3, not
    the neutral score [ceil(4/2) = 2].  On two customers (K = 2) the
    fallback raises: the fill value 3 is not one of the categories [2; 1]. *)
Theorem imputed_score_is_three :
  EnterpriseRFMAnalyzer.n_bins_for (Z.of_nat (length eighty_customers)) = 4
  /\ qcut (map recency eighty_customers) 4 (range_down 4) true = Raise ValueError
  /\ (exists c, cut (rank_first (map recency eighty_customers)) 4 (range_down 4) false
                = Ok c
                /\ hd_error (cat_values c) = Some None)
  /\ (exists out, score_assignment Enterprise eighty_customers = Ok out
                  /\ option_map r_score (hd_error out) = Some 3)
  /\ neutral_score 4 = 2
  /\ EnterpriseRFMAnalyzer.n_bins_for (Z.of_nat (length two_customers)) = 2
  /\ score_assignment Enterprise two_customers = Raise TypeError
  /\ neutral_score 2 = 1.
Proof.
  split; [reflexivity |].
  split; [vm_compute; reflexivity |].
  split; [eexists; split; [vm_compute; reflexivity | reflexivity] |].
  split; [eexists; split; [vm_compute; reflexivity | reflexivity] |].
  repeat split; vm_compute; reflexivity.
Qed.

(** ** The empty table *)

Lemma no_EmptyDatasetError (e : exn) : exception_type e <> "EmptyDatasetError".
Proof. destruct e; discriminate. Qed.

(** What [assign_scores] raises on the empty table is a ValueError, not an
    exception named EmptyDatasetError. *)
Lemma empty_table_not_EmptyDatasetError :
  exists e, RFMAnalyzer.assign_scores [] = Raise e
            /\ exception_type e = "ValueError"
            /\ exception_type e <> "EmptyDatasetError".
Proof.
  exists ValueError. split; [reflexivity |]. split; [reflexivity | discriminate].
Qed.

(** C4, amended.  On an empty metrics table [assign_scores] returns no
    result: the quantile cut fails, the fallback [pd.cut] refuses an empty
    column, and that ValueError leaves the function.  No exception class of
    the program is called EmptyDatasetError. *)
Theorem empty_table_raises_ValueError :
  RFMAnalyzer.assign_scores [] = Raise ValueError
  /\ exception_type ValueError = "ValueError"
  /\ Forall (fun e => exception_type e <> "EmptyDatasetError") all_exceptions.
Proof.
  split; [reflexivity |]. split; [reflexivity |].
  apply Forall_forall. intros e _. apply no_EmptyDatasetError.
Qed.

(** ** The classifiers *)

Lemma default_thresholds_values :
  dict_get default_segment_thresholds "champion_r_min" 4 = 4
  /\ dict_get default_segment_thresholds "champion_f_min" 4 = 4
  /\ dict_get default_segment_thresholds "champion_m_min" 4 = 4
  /\ dict_get default_segment_thresholds "at_risk_r_max" 2 = 2
  /\ dict_get default_segment_thresholds "lost_r_max" 1 = 1.
Proof. repeat split; vm_compute; reflexivity. Qed.

(** C6.  The enterprise classifier is first-match-wins evaluation of its
    rules in the order Champions, Loyal Customers, Potential Loyalists, New
    Customers, Promising, Need Attention, At Risk, Cannot Lose Them, Lost,
    with Others as the catch-all: it returns the segment of the first rule
    whose condition holds, so of two rules that both hold the earlier one
    decides. *)
Theorem segment_customers_first_match (segment_thresholds : gmap string Z)
    (row : ScoredCustomer) :
  EnterpriseRFMAnalyzer.segment_customers segment_thresholds row
  = first_match (enterprise_rules segment_thresholds) "Others" row
  /\ map snd (enterprise_rules segment_thresholds) ++ ["Others"]
     = policy_segments Enterprise.
Proof.
  split; [| reflexivity].
  unfold EnterpriseRFMAnalyzer.segment_customers, enterprise_rules,
    at_risk_condition, cannot_lose_condition.
  simpl. reflexivity.
Qed.

(** First-match-wins, spelt out: a rule decides exactly when all rules before
    it fail and it holds. *)
Lemma first_match_earliest (before after : list rule) (condition : ScoredCustomer -> bool)
    (name catch_all : string) (row : ScoredCustomer) :
  Forall (fun r : rule => fst r row = false) before ->
  condition row = true ->
  first_match (before ++ (condition, name) :: after) catch_all row = name.
Proof.
  induction 1 as [| [c s] rest Hc _ IH]; simpl; intros Hcond.
  - now rewrite Hcond.
  - simpl in Hc. rewrite Hc. now apply IH.
Qed.

(** A row with r = 1, f = 4, m = 4 meets the conditions of both At Risk and
    Cannot Lose Them; the earlier rule, At Risk, gives its segment. *)
Example overlap_goes_to_earlier_rule :
  let row := mkScored (metrics_row 0 400 9 900) 1 4 4 "144" in
  at_risk_condition default_segment_thresholds row = true
  /\ cannot_lose_condition row = true
  /\ EnterpriseRFMAnalyzer.segment_customers default_segment_thresholds row
     = "At Risk".
Proof. repeat split; vm_compute; reflexivity. Qed.

Lemma simple_segment_enumerated (row : ScoredCustomer) :
  In (RFMAnalyzer.segment_customers row) (policy_segments Simple).
Proof.
  unfold RFMAnalyzer.segment_customers.
  repeat match goal with
         | |- context [if ?b then _ else _] => destruct b
         end; simpl; tauto.
Qed.

Lemma enterprise_segment_enumerated (th : gmap string Z) (row : ScoredCustomer) :
  In (EnterpriseRFMAnalyzer.segment_customers th row) (policy_segments Enterprise).
Proof.
  unfold EnterpriseRFMAnalyzer.segment_customers.
  repeat match goal with
         | |- context [if ?b then _ else _] => destruct b
         end; simpl; tauto.
Qed.

(** C7.  Classification is a total function of the score triple: the
    classified table has exactly one label per input row, every label belongs
    to the enumerated set of the policy (with Regular, respectively Others,
    as the catch-all), and the label of a row is a function of its
    (r, f, m) scores alone -- under the simple policy for the rows score
    assignment builds, whose [rfm_score] is the composite of the three
    scores.  Being a function, it gives the same labels on every run. *)
Theorem classification_total (p : Policy) (segment_thresholds : gmap string Z)
    (scored_df : list ScoredCustomer) :
  classify p segment_thresholds scored_df
  = map (classify_row p segment_thresholds) scored_df
  /\ length (classify p segment_thresholds scored_df) = length scored_df
  /\ Forall (fun label => In label (policy_segments p))
            (classify p segment_thresholds scored_df)
  /\ (exists g : Z -> Z -> Z -> string,
        forall row : ScoredCustomer,
          classify_row Enterprise segment_thresholds row
          = g (r_score row) (f_score row) (m_score row))
  /\ (exists g : Z -> Z -> Z -> string,
        forall (row : CustomerMetrics) (r f m : Z),
          classify_row Simple segment_thresholds
            (mkScored row r f m (py_str r ++ py_str f ++ py_str m)%string)
          = g r f m).
Proof.
  assert (Hmap : classify p segment_thresholds scored_df
                 = map (classify_row p segment_thresholds) scored_df).
  { destruct p; simpl;
      [unfold RFMAnalyzer.create_segments
      | unfold EnterpriseRFMAnalyzer._create_segments];
      rewrite map_map; reflexivity. }
  split; [exact Hmap |]. rewrite Hmap.
  split; [apply length_map |].
  split.
  { apply Forall_forall. intros label Hin.
    apply in_map_iff in Hin as (row & <- & _).
    destruct p; [apply simple_segment_enumerated | apply enterprise_segment_enumerated]. }
  pose (blank := mkMetrics EmptyString None None None).
  split.
  - exists (fun r f m =>
              EnterpriseRFMAnalyzer.segment_customers segment_thresholds
                (mkScored blank r f m EmptyString)).
    intros row. reflexivity.
  - exists (fun r f m =>
              RFMAnalyzer.segment_customers
                (mkScored blank r f m (py_str r ++ py_str f ++ py_str m)%string)).
    intros row r f m. reflexivity.
Qed.

Ltac bool_to_Z :=
  repeat match goal with
         | H : _ && _ = true |- _ => apply andb_prop in H as [? ?]
         | H : _ && _ = false |- _ => apply andb_false_iff in H
         | H : _ \/ _ |- _ => destruct H
         | H : (_ >=? _) = _ |- _ => rewrite Z.geb_leb in H
         | H : (_ <=? _) = true |- _ => apply Z.leb_le in H
         | H : (_ <=? _) = false |- _ => apply Z.leb_gt in H
         | H : (_ =? _) = true |- _ => apply Z.eqb_eq in H
         | H : (_ =? _) = false |- _ => apply Z.eqb_neq in H
         end.

(** C10.  With the default thresholds the enterprise classifier never
    answers Cannot Lose Them, whatever the scores: a row that meets that
    rule's condition (r = 1, f >= 4, m >= 4) also meets the condition of the
    earlier At Risk rule (r <= 2, f >= 3), which wins. *)
Theorem cannot_lose_them_unreachable (row : ScoredCustomer) :
  EnterpriseRFMAnalyzer.segment_customers default_segment_thresholds row
  <> "Cannot Lose Them"
  /\ implb (cannot_lose_condition row)
           (at_risk_condition default_segment_thresholds row) = true.
Proof.
  destruct default_thresholds_values as (Hr & Hf & Hm & Hrisk & Hlost).
  unfold EnterpriseRFMAnalyzer.segment_customers, cannot_lose_condition,
    at_risk_condition.
  rewrite Hr, Hf, Hm, Hrisk, Hlost.
  split.
  - repeat match goal with
           | |- context [if ?b then _ else _] => destruct b eqn:?
           end; try discriminate.
    bool_to_Z; lia.
  - destruct ((r_score row =? 1) && (f_score row >=? 4) && (m_score row >=? 4))
      eqn:Hclt; [| reflexivity].
    simpl. apply andb_true_iff. bool_to_Z.
    rewrite Z.geb_leb. split; apply Z.leb_le; lia.
Qed.

(** ** Data preparation and the metrics table *)

Lemma in_insert_sorted {A : Type} (leb : A -> A -> bool) (a x : A) (l : list A) :
  In x (insert_sorted leb a l) -> x = a \/ In x l.
Proof.
  induction l as [| b t IH]; simpl.
  - intros [<- | []]. now left.
  - destruct (leb a b); simpl.
    + intros [<- | H]; auto.
    + intros [<- | H]; auto. destruct (IH H); auto.
Qed.

Lemma in_sort_by {A : Type} (leb : A -> A -> bool) (x : A) (l : list A) :
  In x (sort_by leb l) -> In x l.
Proof.
  induction l as [| a t IH]; simpl; [auto |].
  intros H. apply in_insert_sorted in H as [-> | H]; auto.
Qed.

Lemma in_unique_strings (seen l : list string) (s : string) :
  In s (unique_strings seen l) -> In s l.
Proof.
  revert seen. induction l as [| a t IH]; intros seen; simpl; [auto |].
  destruct (existsb (String.eqb a) seen).
  - intros H. right. eapply IH; eauto.
  - intros [<- | H]; [now left | right; eapply IH; eauto].
Qed.

(** A mask filter, applied only when the mask hits, leaves no masked row. *)
Lemma mask_removed {A : Type} (mask : A -> bool) (l : list A) :
  Forall (fun x => mask x = false)
         (if existsb mask l then List.filter (fun x => negb (mask x)) l else l).
Proof.
  destruct (existsb mask l) eqn:E; apply Forall_forall; intros x Hin.
  - apply filter_In in Hin as (_ & H). now apply negb_true_iff in H.
  - destruct (mask x) eqn:Hx; [| reflexivity].
    rewrite <- E. symmetry. apply existsb_exists. eauto.
Qed.

Lemma filter_all {A : Type} (f : A -> bool) (l : list A) :
  Forall (fun x => f x = true) l -> List.filter f l = l.
Proof.
  induction 1 as [| x t Hx _ IH]; simpl; [reflexivity |].
  now rewrite Hx, IH.
Qed.

(** Filtering only when the mask hits is filtering. *)
Lemma mask_filter {A : Type} (mask : A -> bool) (l : list A) :
  (if existsb mask l then List.filter (fun x => negb (mask x)) l else l)
  = List.filter (fun x => negb (mask x)) l.
Proof.
  destruct (existsb mask l) eqn:E; [reflexivity |].
  symmetry. apply filter_all. apply Forall_forall. intros x Hin.
  destruct (mask x) eqn:Hx; [| reflexivity].
  assert (Hex : existsb mask l = true) by (apply existsb_exists; eauto).
  congruence.
Qed.

Lemma merge_In (orders_df : list Order) (payments_df : list Payment)
    (row : MergedRow) :
  In row (EnterpriseRFMAnalyzer.merge orders_df payments_df) <->
  exists o p, In o orders_df /\ In p payments_df
              /\ p_order_id p = o_order_id o
              /\ row = mkMerged (o_order_id o) (o_customer_id o)
                         (order_purchase_timestamp o) (p_payment_value p).
Proof.
  unfold EnterpriseRFMAnalyzer.merge. rewrite in_flat_map. split.
  - intros (o & Ho & Hrow). apply in_map_iff in Hrow as (p & <- & Hp).
    apply filter_In in Hp as (Hp & Heq). apply String.eqb_eq in Heq.
    exists o, p. auto.
  - intros (o & p & Ho & Hp & Heq & ->). exists o. split; [exact Ho |].
    apply in_map_iff. exists p. split; [reflexivity |].
    apply filter_In. split; [exact Hp |]. now apply String.eqb_eq.
Qed.

(** The rows that data preparation keeps: joined, not dated after [now], and
    with a payment value for which [payment_value <= 0] is false. *)
Lemma _prepare_data_In (now : Z) (orders_df : list Order)
    (payments_df : list Payment) (row : MergedRow) :
  In row (EnterpriseRFMAnalyzer._prepare_data now orders_df payments_df) <->
  In row (EnterpriseRFMAnalyzer.merge orders_df payments_df)
  /\ order_date row <= now
  /\ cell_leb (payment_value row) (Some 0%Q) = false.
Proof.
  unfold EnterpriseRFMAnalyzer._prepare_data.
  rewrite (mask_filter (fun row => now <? order_date row)).
  rewrite (mask_filter (fun row => cell_leb (payment_value row) (Some 0%Q))).
  rewrite !filter_In, !negb_true_iff, Z.ltb_ge. tauto.
Qed.

(** [payment_value <= 0] is false of a value above 0 and of a missing one. *)
Lemma not_invalid_payment (c : cell) :
  cell_leb c (Some 0%Q) = false <-> c = None \/ exists v, c = Some v /\ (0 < v)%Q.
Proof.
  destruct c as [v |]; simpl; [| intuition].
  split.
  - intros H. right. exists v. split; [reflexivity |].
    apply Qnot_le_lt. intros Hle. apply Qle_bool_iff in Hle. congruence.
  - intros [H | (u & H & Hu)]; [discriminate |]. injection H as <-.
    destruct (Qle_bool v 0) eqn:E; [| reflexivity].
    apply Qle_bool_iff in E. lra.
Qed.

Lemma dropna_In (x : column) (v : Q) : In v (dropna x) <-> In (Some v) x.
Proof.
  unfold dropna. rewrite in_flat_map. split.
  - intros ([u |] & Hin & Hv); simpl in Hv; [| contradiction].
    destruct Hv as [<- | []]. exact Hin.
  - intros Hin. exists (Some v). split; [exact Hin | now left].
Qed.

Lemma sum_nonneg (l : list Q) :
  Forall (fun v => (0 < v)%Q) l -> (0 <= fold_right Qplus 0 l)%Q.
Proof.
  induction 1 as [| v t Hv _ IH]; simpl; [lra | lra].
Qed.

Lemma sum_positive (l : list Q) :
  l <> [] -> Forall (fun v => (0 < v)%Q) l -> (0 < fold_right Qplus 0 l)%Q.
Proof.
  destruct l as [| v t]; [congruence |].
  intros _ H. apply Forall_cons_iff in H as (Hv & Ht).
  apply sum_nonneg in Ht. simpl. lra.
Qed.

Lemma group_of_key (df : list MergedRow) (key : string) :
  In key (EnterpriseRFMAnalyzer.group_keys df) ->
  EnterpriseRFMAnalyzer.group df key <> [].
Proof.
  unfold EnterpriseRFMAnalyzer.group_keys, EnterpriseRFMAnalyzer.group.
  intros H. apply in_sort_by, in_unique_strings, in_map_iff in H as (row & Hkey & Hin).
  assert (Hrow : In row (List.filter
                           (fun row => String.eqb (m_customer_id row) key) df)).
  { apply filter_In. split; [exact Hin |]. now apply String.eqb_eq. }
  intros Hnil. rewrite Hnil in Hrow. exact Hrow.
Qed.

(** A customer whose only payment has no value: [NaN <= 0] is false, the row
    passes the filter, and the sum over no value is 0. *)
Lemma missing_payment_gives_zero_monetary :
  ~ Forall (fun row =>
              exists (k : Z) (v : Q),
                frequency row = num k /\ 1 <= k
                /\ monetary row = Some v /\ (0 < v)%Q)
           (EnterpriseRFMAnalyzer._calculate_rfm_metrics 864000
              (EnterpriseRFMAnalyzer._prepare_data 864000
                 [mkOrder "o1" "ann" 0] [mkPaymentCell "o1" None])).
Proof.
  assert (E : EnterpriseRFMAnalyzer._calculate_rfm_metrics 864000
                (EnterpriseRFMAnalyzer._prepare_data 864000
                   [mkOrder "o1" "ann" 0] [mkPaymentCell "o1" None])
              = [mkMetrics "ann" (num 10) (num 1) (Some 0%Q)])
    by (vm_compute; reflexivity).
  rewrite E. intros H. apply Forall_inv in H as (k & v & _ & _ & Hm & Hv).
  simpl in Hm. injection Hm as <-. lra.
Qed.

(** C8, amended.  After data preparation has removed the rows with
    [payment_value <= 0], every row of the metrics table has a frequency of
    at least 1 and a monetary value that is not negative; the monetary value
    is above 0 exactly when the customer has an order, not dated after [now],
    that joins a payment whose value is present and above 0.  A customer
    all of whose remaining payment values are missing has monetary 0.  The
    payments kept are taken to total less than 2^63, so that the sum of an
    integer-typed column cannot wrap. *)
Theorem metrics_frequency_and_monetary_sign (reference_date now : Z)
    (orders_df : list Order) (payments_df : list Payment) :
  (series_sum (map payment_value
                 (EnterpriseRFMAnalyzer._prepare_data now orders_df payments_df))
   < inject_Z (2 ^ 63))%Q ->
  Forall (fun row =>
            exists (k : Z) (v : Q),
              frequency row = num k /\ 1 <= k
              /\ monetary row = Some v /\ (0 <= v)%Q
              /\ ((0 < v)%Q <->
                  exists o p q,
                    In o orders_df /\ In p payments_df
                    /\ p_order_id p = o_order_id o
                    /\ o_customer_id o = customer_id row
                    /\ order_purchase_timestamp o <= now
                    /\ p_payment_value p = Some q /\ (0 < q)%Q))
         (EnterpriseRFMAnalyzer._calculate_rfm_metrics reference_date
            (EnterpriseRFMAnalyzer._prepare_data now orders_df payments_df)).
Proof.
  intros _.
  set (df := EnterpriseRFMAnalyzer._prepare_data now orders_df payments_df).
  unfold EnterpriseRFMAnalyzer._calculate_rfm_metrics.
  apply Forall_forall. intros row Hin.
  apply in_map_iff in Hin as (key & <- & Hkey). simpl.
  apply group_of_key in Hkey.
  set (x := EnterpriseRFMAnalyzer.group df key) in *.
  assert (Hx : forall r, In r x <-> In r df /\ m_customer_id r = key).
  { intros r. subst x. unfold EnterpriseRFMAnalyzer.group.
    rewrite filter_In, String.eqb_eq. tauto. }
  assert (Hpos : Forall (fun v => (0 < v)%Q) (dropna (map payment_value x))).
  { apply Forall_forall. intros v Hv.
    apply dropna_In, in_map_iff in Hv as (r & Hr & Hin).
    apply Hx in Hin as (Hin & _). apply _prepare_data_In in Hin as (_ & _ & Hk).
    apply not_invalid_payment in Hk as [Hk | (u & Hu & Hpos)]; congruence. }
  exists (Z.of_nat (length (map order_id x))), (series_sum (map payment_value x)).
  split; [reflexivity |]. split.
  { rewrite length_map. destruct x; [congruence | simpl; lia]. }
  split; [reflexivity |]. split; [now apply sum_nonneg |].
  unfold series_sum. split.
  - intros Hsum.
    destruct (dropna (map payment_value x)) as [| v t] eqn:E;
      [simpl in Hsum; lra |].
    assert (Hv : In v (dropna (map payment_value x))) by (rewrite E; now left).
    apply Forall_inv in Hpos.
    apply dropna_In, in_map_iff in Hv as (r & Hr & Hin).
    apply Hx in Hin as (Hin & Hkey').
    apply _prepare_data_In in Hin as (Hm & Hdate & _).
    apply merge_In in Hm as (o & p & Ho & Hp & Heq & ->). simpl in *.
    exists o, p, v. auto 10.
  - intros (o & p & q & Ho & Hp & Heq & Hc & Hdate & Hq & Hpos').
    assert (Hin : In q (dropna (map payment_value x))).
    { apply dropna_In, in_map_iff.
      exists (mkMerged (o_order_id o) (o_customer_id o)
                (order_purchase_timestamp o) (p_payment_value p)).
      split; [exact Hq |]. apply Hx. split; [| exact Hc].
      apply _prepare_data_In. simpl. split; [| split; [exact Hdate |]].
      - apply merge_In. exists o, p. auto.
      - apply not_invalid_payment. right. exists q. auto. }
    apply sum_positive; [| exact Hpos].
    intros Hnil. rewrite Hnil in Hin. exact Hin.
Qed.

(** Two customers: ann with a payment of 30 and one without a value, bob
    with only a payment without a value. *)
Lemma metrics_frequency_and_monetary_sign_witness :
  let orders_df := [mkOrder "o1" "ann" 0; mkOrder "o2" "bob" 86400] in
  let payments_df := [mkPayment "o1" 30; mkPaymentCell "o1" None;
                      mkPaymentCell "o2" None] in
  Forall (fun row =>
            exists (k : Z) (v : Q),
              frequency row = num k /\ 1 <= k
              /\ monetary row = Some v /\ (0 <= v)%Q
              /\ ((0 < v)%Q <->
                  exists o p q,
                    In o orders_df /\ In p payments_df
                    /\ p_order_id p = o_order_id o
                    /\ o_customer_id o = customer_id row
                    /\ order_purchase_timestamp o <= 864000
                    /\ p_payment_value p = Some q /\ (0 < q)%Q))
         (EnterpriseRFMAnalyzer._calculate_rfm_metrics 864000
            (EnterpriseRFMAnalyzer._prepare_data 864000 orders_df payments_df)).
Proof.
  intros orders_df payments_df.
  apply (metrics_frequency_and_monetary_sign 864000 864000 orders_df payments_df).
  vm_compute. reflexivity.
Defined.

(** The preparation on an order book with a refund and a payment without a
    value: the negative payment is dropped, the zero payment too, the missing
    one stays and counts as an order of customer ann, who keeps the two
    valid amounts. *)
Example prepare_drops_refund :
  EnterpriseRFMAnalyzer._calculate_rfm_metrics 864000
    (EnterpriseRFMAnalyzer._prepare_data 864000
       [mkOrder "o1" "ann" 0; mkOrder "o2" "bob" 86400; mkOrder "o3" "ann" 172800]
       [mkPayment "o1" 30; mkPayment "o2" (-5); mkPayment "o3" 12;
        mkPayment "o3" 0; mkPaymentCell "o1" None])
  = [mkMetrics "ann" (num 8) (num 3) (Some (30 + (12 + 0))%Q)].
Proof. vm_compute. reflexivity. Qed.

(** ** The statistics stage *)

Lemma insert_sorted_length {A : Type} (leb : A -> A -> bool) (a : A) (l : list A) :
  length (insert_sorted leb a l) = S (length l).
Proof.
  induction l as [| b t IH]; simpl; [reflexivity |].
  destruct (leb a b); simpl; [reflexivity | now rewrite IH].
Qed.

Lemma sort_by_length {A : Type} (leb : A -> A -> bool) (l : list A) :
  length (sort_by leb l) = length l.
Proof.
  induction l as [| a t IH]; simpl; [reflexivity |].
  now rewrite insert_sorted_length, IH.
Qed.

Lemma cumsum_from_length (acc : Q) (x : column) :
  length (cumsum_from acc x) = length x.
Proof.
  revert acc. induction x as [| [v |] t IH]; intros acc; simpl;
    [reflexivity | now rewrite IH | now rewrite IH].
Qed.

Lemma iloc_in_range {A : Type} (s : list A) (i : Z) :
  - Z.of_nat (length s) <= i < Z.of_nat (length s) ->
  exists v, iloc s i = Ok v.
Proof.
  intros Hi. unfold iloc.
  set (n := Z.of_nat (length s)) in *.
  set (j := if i <? 0 then i + n else i).
  assert (Hj : 0 <= j < n).
  { subst j. destruct (Z.ltb_spec i 0); lia. }
  destruct (Z.ltb_spec j 0); [lia |].
  destruct (Z.leb_spec n j); [lia |]. simpl.
  destruct (nth_error s (Z.to_nat j)) as [v |] eqn:E; [eauto |].
  apply nth_error_None in E. lia.
Qed.

Lemma top_20_index_in_range (n : nat) :
  (1 <= n)%nat ->
  - Z.of_nat n <= py_int (inject_Z (Z.of_nat n) * (2 # 10))%Q - 1 < Z.of_nat n.
Proof.
  intros Hn. unfold py_int. simpl Qnum. simpl Qden.
  change (Z.pos (1 * 10)) with 10.
  rewrite Z.quot_div_nonneg by lia.
  pose proof (Z.div_pos (Z.of_nat n * 2) 10).
  pose proof (Z.div_le_upper_bound (Z.of_nat n * 2) 10 (Z.of_nat n)).
  lia.
Qed.

Lemma _calculate_pareto_distribution_returns (segments_df : list PrioritizedCustomer) :
  (1 <= length segments_df)%nat ->
  exists pareto,
    EnterpriseRFMAnalyzer._calculate_pareto_distribution segments_df = Ok pareto.
Proof.
  intros Hn. unfold EnterpriseRFMAnalyzer._calculate_pareto_distribution.
  set (sorted_customers := sort_by EnterpriseRFMAnalyzer.monetary_desc segments_df).
  assert (Hlen : length sorted_customers = length segments_df)
    by apply sort_by_length.
  set (cumulative := cumsum (EnterpriseRFMAnalyzer.col_monetary sorted_customers)).
  assert (Hcum : length cumulative = length segments_df).
  { subst cumulative. unfold cumsum, EnterpriseRFMAnalyzer.col_monetary.
    now rewrite cumsum_from_length, length_map. }
  destruct (iloc_in_range cumulative
              (py_int (inject_Z (Z.of_nat (length sorted_customers)) * (2 # 10))%Q - 1))
    as (v & Hv).
  { rewrite Hcum, Hlen. now apply top_20_index_in_range. }
  rewrite Hv. simpl. eauto.
Qed.

Lemma percentile_returns (a : column) (p : Q) :
  a <> [] -> exists c, percentile a p = Ok c.
Proof.
  destruct a as [| c t]; [congruence |]. intros _. unfold percentile.
  match goal with
  | |- context [if ?b then _ else _] => destruct b
  end; eauto.
Qed.

Lemma segment_entry_returns (segments_df : list PrioritizedCustomer) (seg : string) :
  In seg (EnterpriseRFMAnalyzer.col_segment segments_df) ->
  exists entry, EnterpriseRFMAnalyzer.segment_entry segments_df seg = Ok entry.
Proof.
  intros Hin. unfold EnterpriseRFMAnalyzer.segment_entry.
  unfold EnterpriseRFMAnalyzer.col_segment in Hin.
  apply in_map_iff in Hin as (row & Hseg & Hrow).
  assert (Hdata : In row (EnterpriseRFMAnalyzer.segment_rows segments_df seg)).
  { apply filter_In. split; [exact Hrow |]. now apply String.eqb_eq. }
  unfold py_truediv.
  destruct (Z.eqb_spec (Z.of_nat (length segments_df)) 0) as [Hz | _].
  { destruct segments_df; [destruct Hrow | simpl in Hz; lia]. }
  destruct (percentile_returns
              (EnterpriseRFMAnalyzer.col_monetary
                 (EnterpriseRFMAnalyzer.segment_rows segments_df seg)) 90)
    as (top & ->).
  { destruct (EnterpriseRFMAnalyzer.segment_rows segments_df seg);
      [destruct Hdata | discriminate]. }
  simpl. eauto.
Qed.

Lemma segment_loop_returns (segments_df : list PrioritizedCustomer)
    (todo : list string) :
  Forall (fun seg => In seg (EnterpriseRFMAnalyzer.col_segment segments_df)) todo ->
  forall acc, exists per_segment,
    EnterpriseRFMAnalyzer.segment_loop segments_df todo acc = Ok per_segment.
Proof.
  induction 1 as [| seg rest Hseg _ IH]; intros acc; simpl; [eauto |].
  destruct (segment_entry_returns segments_df seg Hseg) as (entry & ->). simpl.
  apply IH.
Qed.

Lemma _analyze_segments_returns (segments_df : list PrioritizedCustomer) :
  (1 <= length segments_df)%nat ->
  exists stats, EnterpriseRFMAnalyzer._analyze_segments segments_df = Ok stats.
Proof.
  intros Hn. unfold EnterpriseRFMAnalyzer._analyze_segments.
  destruct (segment_loop_returns segments_df
              (unique_strings [] (EnterpriseRFMAnalyzer.col_segment segments_df)))
    with (acc := (∅ : gmap string SegmentStats)) as (per_segment & ->).
  { apply Forall_forall. intros seg. apply in_unique_strings. }
  destruct (_calculate_pareto_distribution_returns segments_df Hn) as (pareto & ->).
  simpl. eauto.
Qed.

(** C9.  On a population of one to four customers the statistics stage
    returns: the per-segment aggregation (with its 90th percentile) and the
    Pareto computation raise nothing.  There [int(n * 0.2)] is 0, and
    [iloc[-1]] reads the last cumulative sum. *)
Theorem statistics_complete_on_small_population
    (segments_df : list PrioritizedCustomer) :
  (1 <= length segments_df < 5)%nat ->
  (exists stats, EnterpriseRFMAnalyzer._analyze_segments segments_df = Ok stats)
  /\ (exists pareto,
        EnterpriseRFMAnalyzer._calculate_pareto_distribution segments_df = Ok pareto)
  /\ py_int (inject_Z (Z.of_nat (length segments_df)) * (2 # 10))%Q = 0.
Proof.
  intros [Hlow Hhigh].
  split; [now apply _analyze_segments_returns |].
  split; [now apply _calculate_pareto_distribution_returns |].
  unfold py_int. simpl Qnum. simpl Qden. change (Z.pos (1 * 10)) with 10.
  apply Z.quot_small. lia.
Qed.

Lemma statistics_complete_on_small_population_witness :
  (exists stats, EnterpriseRFMAnalyzer._analyze_segments sixty_forty = Ok stats)
  /\ (exists pareto,
        EnterpriseRFMAnalyzer._calculate_pareto_distribution sixty_forty = Ok pareto)
  /\ py_int (inject_Z (Z.of_nat (length sixty_forty)) * (2 # 10))%Q = 0.
Proof.
  apply (statistics_complete_on_small_population sixty_forty).
  simpl. lia.
Defined.

(** ** The Pareto statistic *)

(** C2.  The code counts the customers whose cumulative revenue is at most
    80% of the total, which is not the smallest prefix reaching 80%.  For a
    single customer with monetary 100 (total revenue 100 > 0) it reports 0%
    where the smallest prefix reaching 80 is that one customer, 100%; for
    two customers with 60 and 40 it reports 50% (one customer, 60% of the
    revenue) where the smallest reaching prefix is both, 100%. *)
Theorem pareto_count_stops_short :
  (0 < series_sum (EnterpriseRFMAnalyzer.col_monetary single_customer))%Q
  /\ (exists pareto,
        EnterpriseRFMAnalyzer._calculate_pareto_distribution single_customer
        = Ok pareto
        /\ cell_eqb (customers_for_80_revenue_pct pareto) (num 0) = true)
  /\ (customers_for_80_spec single_customer == 100)%Q
  /\ (exists pareto,
        EnterpriseRFMAnalyzer._calculate_pareto_distribution sixty_forty
        = Ok pareto
        /\ cell_eqb (customers_for_80_revenue_pct pareto) (num 50) = true)
  /\ (customers_for_80_spec sixty_forty == 100)%Q.
Proof.
  split; [vm_compute; reflexivity |].
  split; [eexists; split; [vm_compute; reflexivity | vm_compute; reflexivity] |].
  split; [vm_compute; reflexivity |].
  split; [eexists; split; [vm_compute; reflexivity | vm_compute; reflexivity] |].
  vm_compute; reflexivity.
Qed.

(** Where a prefix hits 80% exactly, the count and the smallest reaching
    prefix coincide: 50, 30, 20 gives two customers of three either way. *)
Example pareto_count_on_exact_tie :
  let df := [segmented_row "0" 50; segmented_row "1" 30; segmented_row "2" 20] in
  (exists pareto,
     EnterpriseRFMAnalyzer._calculate_pareto_distribution df = Ok pareto
     /\ cell_eqb (customers_for_80_revenue_pct pareto) (Some (200 # 3)) = true)
  /\ (customers_for_80_spec df == 200 # 3)%Q.
Proof.
  split; [eexists; split; vm_compute; reflexivity | vm_compute; reflexivity].
Qed.

(** * Further properties *)

(** ** What score assignment leaves untouched, and the composite key *)

Lemma with_scores_metrics rfm r f m :
  length r = length rfm -> length f = length rfm -> length m = length rfm ->
  map metrics (with_scores rfm r f m) = rfm.
Proof.
  unfold with_scores. rewrite map_map.
  revert r f m. induction rfm as [| row rest IH]; intros r f m Hr Hf Hm;
    [reflexivity |].
  destruct r as [| rs r]; [discriminate |].
  destruct f as [| fs f]; [discriminate |].
  destruct m as [| ms m]; [discriminate |].
  simpl in *. f_equal. apply IH; lia.
Qed.

Lemma with_scores_composite rfm r f m :
  Forall (fun row => rfm_score row
                     = (py_str (r_score row) ++ py_str (f_score row)
                        ++ py_str (m_score row))%string)
         (with_scores rfm r f m).
Proof.
  unfold with_scores. apply Forall_forall. intros row Hin.
  apply in_map_iff in Hin as ([x [rs [fs ms]]] & <- & _). reflexivity.
Qed.

Lemma py_str_digit (z : Z) : 1 <= z <= 5 -> String.length (py_str z) = 1%nat.
Proof.
  intros Hz.
  assert (H : z = 1 \/ z = 2 \/ z = 3 \/ z = 4 \/ z = 5) by lia.
  destruct H as [-> | [-> | [-> | [-> | ->]]]]; reflexivity.
Qed.

Lemma string_length_app (s t : string) :
  String.length (s ++ t)%string = (String.length s + String.length t)%nat.
Proof. induction s as [| c s IH]; simpl; [reflexivity | now rewrite IH]. Qed.

Lemma score_assignment_columns (p : Policy) (rfm_df : list CustomerMetrics)
    (out : list ScoredCustomer) :
  score_assignment p rfm_df = Ok out ->
  exists r f m : list Z,
    out = with_scores rfm_df r f m
    /\ length r = length rfm_df /\ length f = length rfm_df
    /\ length m = length rfm_df.
Proof.
  destruct p; simpl.
  - unfold RFMAnalyzer.assign_scores. intros H.
    apply bind_Ok in H as (r & Hr & H).
    apply bind_Ok in H as (f & Hf & H).
    apply bind_Ok in H as (m & Hm & H).
    injection H as <-.
    apply simple_column_length in Hr; [| reflexivity].
    apply simple_column_length in Hf; [| now rewrite rank_first_length].
    apply simple_column_length in Hm; [| reflexivity].
    rewrite rank_first_length in Hf. rewrite length_map in Hr, Hf, Hm.
    do 3 eexists. split; [reflexivity |].
    now rewrite !post_length.
  - unfold EnterpriseRFMAnalyzer._assign_rfm_scores. intros H.
    apply bind_Ok in H as ([[r f] m] & Hscores & H).
    injection H as <-.
    do 3 eexists. split; [reflexivity |]. rewrite !post_length.
    apply try_except_Ok in Hscores as [H | H];
      apply bind_Ok in H as (r0 & Hr & H);
      apply bind_Ok in H as (f0 & Hf & H);
      apply bind_Ok in H as (m0 & Hm & H);
      injection H as -> -> ->.
    + apply qcut_length in Hr, Hf, Hm.
      rewrite rank_first_length in Hf. rewrite length_map in Hr, Hf, Hm. auto.
    + apply cut_fillna_length in Hr, Hf, Hm.
      rewrite rank_first_length, length_map in Hr, Hf, Hm. auto.
Qed.

(** X1.  Score assignment only adds columns: the metrics of the returned rows
    are the input rows, in order.  Its composite key is the concatenation of
    the three scores written in decimal, and it is exactly three characters
    long. *)
Theorem scored_rows_keep_metrics (p : Policy) (rfm_df : list CustomerMetrics)
    (out : list ScoredCustomer) :
  score_assignment p rfm_df = Ok out ->
  map metrics out = rfm_df
  /\ Forall (fun row =>
               rfm_score row
               = (py_str (r_score row) ++ py_str (f_score row)
                  ++ py_str (m_score row))%string
               /\ String.length (rfm_score row) = 3%nat) out.
Proof.
  intros H.
  pose proof (scores_in_range_aux := H).
  apply score_assignment_columns in H as (r & f & m & -> & Hr & Hf & Hm).
  split; [now apply with_scores_metrics |].
  assert (Hrange : Forall (fun row => 1 <= r_score row <= 5
                                      /\ 1 <= f_score row <= 5
                                      /\ 1 <= m_score row <= 5)
                          (with_scores rfm_df r f m)).
  { destruct p; simpl in scores_in_range_aux.
    - now apply assign_scores_sound in scores_in_range_aux.
    - apply _assign_rfm_scores_sound in scores_in_range_aux as (_ & Hs).
      pose proof (n_bins_for_range (Z.of_nat (length rfm_df))) as HK.
      eapply Forall_impl; [| exact Hs]. simpl. intros row. lia. }
  pose proof (with_scores_composite rfm_df r f m) as Hcomp.
  rewrite Forall_forall in Hrange, Hcomp. apply Forall_forall. intros row Hin.
  specialize (Hrange row Hin) as (Rr & Rf & Rm). specialize (Hcomp row Hin).
  split; [exact Hcomp |].
  rewrite Hcomp, !string_length_app, !py_str_digit by assumption. reflexivity.
Qed.

Lemma scored_rows_keep_metrics_witness :
  exists out,
    score_assignment Simple three_customers = Ok out
    /\ map metrics out = three_customers
    /\ Forall (fun row =>
                 rfm_score row
                 = (py_str (r_score row) ++ py_str (f_score row)
                    ++ py_str (m_score row))%string
                 /\ String.length (rfm_score row) = 3%nat) out.
Proof.
  eexists. split; [vm_compute; reflexivity |].
  apply (scored_rows_keep_metrics Simple three_customers).
  vm_compute. reflexivity.
Defined.

(** ** The join, the cleaning and the grouping *)

Lemma in_insert_sorted_iff {A : Type} (leb : A -> A -> bool) (a x : A) (l : list A) :
  In x (insert_sorted leb a l) <-> x = a \/ In x l.
Proof.
  split; [apply in_insert_sorted |].
  induction l as [| b t IH]; simpl.
  - intros [-> | []]. now left.
  - destruct (leb a b); simpl; intros [-> | [-> | H]]; auto.
Qed.

Lemma in_sort_by_iff {A : Type} (leb : A -> A -> bool) (x : A) (l : list A) :
  In x (sort_by leb l) <-> In x l.
Proof.
  induction l as [| a t IH]; simpl; [tauto |].
  rewrite in_insert_sorted_iff, IH. intuition congruence.
Qed.

Lemma in_unique_strings_iff (seen l : list string) (s : string) :
  In s (unique_strings seen l) <-> In s l /\ ~ In s seen.
Proof.
  revert seen. induction l as [| a t IH]; intros seen; simpl; [tauto |].
  destruct (existsb (String.eqb a) seen) eqn:E.
  - apply existsb_exists in E as (b & Hb & Heq). apply String.eqb_eq in Heq.
    subst b. rewrite IH. intuition congruence.
  - assert (Ha : ~ In a seen).
    { intros Hin. apply Bool.not_true_iff_false in E. apply E.
      apply existsb_exists. exists a. split; [exact Hin |]. apply String.eqb_refl. }
    simpl. rewrite IH. simpl.
    destruct (String.eqb_spec a s) as [-> | Hne]; [tauto |].
    intuition congruence.
Qed.

Lemma group_keys_In (df : list MergedRow) (key : string) :
  In key (EnterpriseRFMAnalyzer.group_keys df) <-> In key (map m_customer_id df).
Proof.
  unfold EnterpriseRFMAnalyzer.group_keys.
  rewrite in_sort_by_iff, in_unique_strings_iff. simpl. tauto.
Qed.

Lemma metrics_customer_ids (reference_date : Z) (df : list MergedRow) :
  map customer_id (EnterpriseRFMAnalyzer._calculate_rfm_metrics reference_date df)
  = EnterpriseRFMAnalyzer.group_keys df.
Proof.
  unfold EnterpriseRFMAnalyzer._calculate_rfm_metrics.
  rewrite map_map. simpl. apply map_id.
Qed.

(** X2.  A customer has a row in the enterprise metrics table exactly when
    one of their orders joins a payment on [order_id], is not dated after
    [now], and has a payment value that is above zero or missing.  Orders
    without a payment, future-dated orders and payments of zero or less
    contribute nothing. *)
Theorem customer_in_metrics_iff (reference_date now : Z) (orders_df : list Order)
    (payments_df : list Payment) (c : string) :
  In c (map customer_id
          (EnterpriseRFMAnalyzer._calculate_rfm_metrics reference_date
             (EnterpriseRFMAnalyzer._prepare_data now orders_df payments_df)))
  <-> exists o p, In o orders_df /\ In p payments_df
                  /\ p_order_id p = o_order_id o
                  /\ o_customer_id o = c
                  /\ order_purchase_timestamp o <= now
                  /\ (p_payment_value p = None
                      \/ exists v, p_payment_value p = Some v /\ (0 < v)%Q).
Proof.
  rewrite metrics_customer_ids, group_keys_In, in_map_iff. split.
  - intros (row & <- & Hrow).
    apply _prepare_data_In in Hrow as (Hm & Hdate & Hpay).
    apply not_invalid_payment in Hpay.
    apply merge_In in Hm as (o & p & Ho & Hp & Heq & ->). simpl in *.
    exists o, p. auto 10.
  - intros (o & p & Ho & Hp & Heq & <- & Hdate & Hpay).
    exists (mkMerged (o_order_id o) (o_customer_id o)
              (order_purchase_timestamp o) (p_payment_value p)).
    split; [reflexivity |].
    apply _prepare_data_In. split; [| split; [assumption |]].
    + apply merge_In. exists o, p. auto.
    + now apply not_invalid_payment.
Qed.

Lemma unique_strings_NoDup (seen l : list string) : NoDup (unique_strings seen l).
Proof.
  revert seen. induction l as [| a t IH]; intros seen; simpl; [constructor |].
  destruct (existsb (String.eqb a) seen); [apply IH |].
  constructor; [| apply IH].
  rewrite in_unique_strings_iff. simpl. tauto.
Qed.

Lemma insert_sorted_NoDup {A : Type} (leb : A -> A -> bool) (a : A) (l : list A) :
  ~ In a l -> NoDup l -> NoDup (insert_sorted leb a l).
Proof.
  induction l as [| b t IH]; simpl; intros Ha Hl.
  - constructor; [auto | constructor].
  - destruct (leb a b).
    + constructor; assumption.
    + inversion Hl as [| ? ? Hb Ht]; subst.
      constructor; [| apply IH; tauto].
      rewrite in_insert_sorted_iff. intros [-> | H]; tauto.
Qed.

Lemma sort_by_NoDup {A : Type} (leb : A -> A -> bool) (l : list A) :
  NoDup l -> NoDup (sort_by leb l).
Proof.
  induction 1 as [| a t Ha _ IH]; simpl; [constructor |].
  apply insert_sorted_NoDup; [| exact IH]. now rewrite in_sort_by_iff.
Qed.

Section SortedBy.
Context {A : Type} (leb : A -> A -> bool).
Hypothesis leb_total : forall a b, leb a b = true \/ leb b a = true.

Lemma insert_sorted_Sorted (a : A) (l : list A) :
  Sorted (fun x y => leb x y = true) l ->
  Sorted (fun x y => leb x y = true) (insert_sorted leb a l).
Proof.
  induction 1 as [| b t Ht IH Hb]; simpl.
  - repeat constructor.
  - destruct (leb a b) eqn:E.
    + constructor; [constructor; assumption | constructor; exact E].
    + constructor; [exact IH |].
      assert (Hba : leb b a = true) by (destruct (leb_total a b); congruence).
      destruct t as [| c t']; simpl.
      * constructor. exact Hba.
      * inversion Hb; subst. destruct (leb a c); constructor; assumption.
Qed.

Lemma sort_by_Sorted (l : list A) :
  Sorted (fun x y => leb x y = true) (sort_by leb l).
Proof.
  induction l as [| a t IH]; simpl; [constructor |].
  now apply insert_sorted_Sorted.
Qed.
End SortedBy.

(** X3.  The metrics table has one row per customer: the customer ids are
    pairwise distinct, and the rows come in ascending order of customer id,
    as [groupby] sorts its keys. *)
Theorem metrics_one_row_per_customer (reference_date : Z) (df : list MergedRow) :
  NoDup (map customer_id
           (EnterpriseRFMAnalyzer._calculate_rfm_metrics reference_date df))
  /\ Sorted (fun a b => String.leb a b = true)
            (map customer_id
               (EnterpriseRFMAnalyzer._calculate_rfm_metrics reference_date df)).
Proof.
  rewrite metrics_customer_ids. unfold EnterpriseRFMAnalyzer.group_keys. split.
  - apply sort_by_NoDup, unique_strings_NoDup.
  - apply sort_by_Sorted. apply String.leb_total.
Qed.

Lemma weighted_sum_split (w : MergedRow -> Q) (df : list MergedRow)
    (k : string) (ks : list string) :
  ~ In k ks ->
  (weighted_sum w
     (List.filter (fun row => existsb (String.eqb (m_customer_id row)) (k :: ks)) df)
   == weighted_sum w (EnterpriseRFMAnalyzer.group df k)
      + weighted_sum w
          (List.filter (fun row => existsb (String.eqb (m_customer_id row)) ks) df))%Q.
Proof.
  intros Hk. unfold weighted_sum, EnterpriseRFMAnalyzer.group.
  induction df as [| row rest IH]; simpl; [lra |].
  destruct (String.eqb_spec (m_customer_id row) k) as [Heq | Hne]; simpl.
  - assert (Hks : existsb (String.eqb (m_customer_id row)) ks = false).
    { destruct (existsb _ ks) eqn:E; [| reflexivity].
      apply existsb_exists in E as (b & Hb & Hbeq).
      apply String.eqb_eq in Hbeq. congruence. }
    rewrite Hks. simpl. rewrite IH. lra.
  - destruct (existsb (String.eqb (m_customer_id row)) ks); simpl;
      rewrite IH; lra.
Qed.

Lemma weighted_sum_groups (w : MergedRow -> Q) (df : list MergedRow)
    (keys : list string) :
  NoDup keys ->
  (fold_right Qplus 0
     (map (fun key => weighted_sum w (EnterpriseRFMAnalyzer.group df key)) keys)
   == weighted_sum w
        (List.filter (fun row => existsb (String.eqb (m_customer_id row)) keys) df))%Q.
Proof.
  induction 1 as [| k ks Hk _ IH]; simpl.
  - unfold weighted_sum. induction df; simpl; [lra | assumption].
  - rewrite IH. symmetry. now apply weighted_sum_split.
Qed.

Lemma weighted_sum_all_groups (w : MergedRow -> Q) (df : list MergedRow) :
  (fold_right Qplus 0
     (map (fun key => weighted_sum w (EnterpriseRFMAnalyzer.group df key))
          (EnterpriseRFMAnalyzer.group_keys df))
   == weighted_sum w df)%Q.
Proof.
  rewrite weighted_sum_groups
    by (apply sort_by_NoDup, unique_strings_NoDup).
  rewrite filter_all; [reflexivity |].
  apply Forall_forall. intros row Hrow.
  apply existsb_exists. exists (m_customer_id row).
  split; [| apply String.eqb_refl].
  apply group_keys_In, in_map, Hrow.
Qed.

Lemma series_sum_Some {A : Type} (g : A -> Q) (l : list A) :
  series_sum (map (fun a => Some (g a)) l) = fold_right Qplus 0%Q (map g l).
Proof.
  unfold series_sum. induction l as [| a t IH]; simpl; [reflexivity |].
  now rewrite IH.
Qed.

Lemma weighted_sum_ones {A : Type} (l : list A) :
  (weighted_sum (fun _ => 1) l == inject_Z (Z.of_nat (length l)))%Q.
Proof.
  unfold weighted_sum. induction l as [| a t IH]; [reflexivity |].
  cbn [map fold_right length]. rewrite IH, Nat2Z.inj_succ.
  unfold Z.succ. rewrite inject_Z_plus. change (inject_Z 1) with 1%Q. ring.
Qed.

(** X4.  Grouping loses no row: the frequencies of the metrics table add up
    to the number of joined rows.  A customer's frequency counts joined
    order-payment rows, so an order paid in two instalments counts twice. *)
Theorem metrics_conserve_rows (reference_date : Z) (df : list MergedRow) :
  (series_sum (map frequency
                 (EnterpriseRFMAnalyzer._calculate_rfm_metrics reference_date df))
   == inject_Z (Z.of_nat (length df)))%Q.
Proof.
  unfold EnterpriseRFMAnalyzer._calculate_rfm_metrics. rewrite !map_map. simpl.
  unfold num.
  rewrite (series_sum_Some
             (fun key => inject_Z (Z.of_nat
                (length (map order_id (EnterpriseRFMAnalyzer.group df key)))))).
  rewrite <- weighted_sum_ones.
  rewrite <- (weighted_sum_all_groups (fun _ => 1%Q) df).
  induction (EnterpriseRFMAnalyzer.group_keys df) as [| k ks IH];
    [reflexivity |].
  cbn [map fold_right]. rewrite IH, length_map, weighted_sum_ones. reflexivity.
Qed.

Lemma max_date_bound (dates : list Z) (bound : Z) :
  dates <> [] -> Forall (fun d => d <= bound) dates ->
  fold_right Z.max (hd 0 dates) dates <= bound.
Proof.
  destruct dates as [| d0 t]; [congruence |]. intros _ H.
  apply Forall_cons_iff in H as (H0 & Ht). simpl.
  assert (Ht' : fold_right Z.max d0 t <= bound).
  { induction Ht as [| d t' Hd _ IH]; simpl; lia. }
  lia.
Qed.

(** X5.  When the reference date is not before [now], no customer of the
    prepared data has a negative recency: future-dated orders have been
    removed, so every latest purchase lies at or before the reference
    date. *)
Theorem recency_nonnegative (reference_date now : Z) (orders_df : list Order)
    (payments_df : list Payment) :
  now <= reference_date ->
  Forall (fun row => exists days : Z, recency row = num days /\ 0 <= days)
         (EnterpriseRFMAnalyzer._calculate_rfm_metrics reference_date
            (EnterpriseRFMAnalyzer._prepare_data now orders_df payments_df)).
Proof.
  intros Href.
  set (df := EnterpriseRFMAnalyzer._prepare_data now orders_df payments_df).
  unfold EnterpriseRFMAnalyzer._calculate_rfm_metrics.
  apply Forall_forall. intros row Hin.
  apply in_map_iff in Hin as (key & <- & Hkey). simpl.
  eexists. split; [reflexivity |].
  unfold EnterpriseRFMAnalyzer.recency_days.
  apply Z.div_pos; [| lia].
  pose proof (group_of_key df key Hkey) as Hne.
  assert (Hmax : fold_right Z.max
                   (hd 0 (map order_date (EnterpriseRFMAnalyzer.group df key)))
                   (map order_date (EnterpriseRFMAnalyzer.group df key)) <= now).
  { apply max_date_bound.
    - destruct (EnterpriseRFMAnalyzer.group df key); [congruence | discriminate].
    - apply Forall_forall. intros d Hd.
      apply in_map_iff in Hd as (r & <- & Hr).
      unfold EnterpriseRFMAnalyzer.group in Hr. apply filter_In in Hr as (Hr & _).
      subst df. apply _prepare_data_In in Hr. tauto. }
  lia.
Qed.

Lemma recency_nonnegative_witness :
  Forall (fun row => exists days : Z, recency row = num days /\ 0 <= days)
         (EnterpriseRFMAnalyzer._calculate_rfm_metrics 864000
            (EnterpriseRFMAnalyzer._prepare_data 864000
               [mkOrder "o1" "ann" 0; mkOrder "o2" "bob" 86400]
               [mkPayment "o1" 30; mkPayment "o2" 5])).
Proof.
  apply (recency_nonnegative 864000 864000). lia.
Defined.

(** ** More on the classifiers *)

(** X6.  In the simple policy, on the rows score assignment builds (scores
    in 1..5, composite key derived from them), Champions are exactly the
    rows with all three scores at 4 or 5, except the triple (4, 4, 4), which
    the allow-list omits. *)
Theorem simple_champions_iff (row : CustomerMetrics) (r f m : Z) :
  1 <= r <= 5 -> 1 <= f <= 5 -> 1 <= m <= 5 ->
  RFMAnalyzer.segment_customers
    (mkScored row r f m (py_str r ++ py_str f ++ py_str m)%string)
  = "Champions"
  <-> 4 <= r /\ 4 <= f /\ 4 <= m /\ ~ (r = 4 /\ f = 4 /\ m = 4).
Proof.
  intros Hr Hf Hm.
  assert (Er : r = 1 \/ r = 2 \/ r = 3 \/ r = 4 \/ r = 5) by lia.
  assert (Ef : f = 1 \/ f = 2 \/ f = 3 \/ f = 4 \/ f = 5) by lia.
  assert (Em : m = 1 \/ m = 2 \/ m = 3 \/ m = 4 \/ m = 5) by lia.
  clear Hr Hf Hm.
  destruct Er as [-> | [-> | [-> | [-> | ->]]]];
    destruct Ef as [-> | [-> | [-> | [-> | ->]]]];
    destruct Em as [-> | [-> | [-> | [-> | ->]]]];
    (split; intros H;
     [ vm_compute in H; try discriminate H; lia
     | try lia; vm_compute; reflexivity ]).
Qed.

Lemma simple_champions_iff_witness :
  RFMAnalyzer.segment_customers
    (mkScored (metrics_row 0 9 3 80) 4 4 4 (py_str 4 ++ py_str 4 ++ py_str 4)%string)
  = "Champions"
  <-> 4 <= 4 /\ 4 <= 4 /\ 4 <= 4 /\ ~ (4 = 4 /\ 4 = 4 /\ 4 = 4).
Proof.
  apply (simple_champions_iff (metrics_row 0 9 3 80) 4 4 4); lia.
Defined.

(** X7.  Every row of the enterprise segment table has a priority: the
    priority map has an entry for each of the ten segments the classifier
    can return, so the lookup never comes back missing, and the priority
    lies between 1 and 10. *)
Theorem segment_priority_never_missing (segment_thresholds : gmap string Z)
    (rfm_df : list ScoredCustomer) :
  Forall (fun row => exists k : Z, segment_priority row = Some k /\ 1 <= k <= 10)
         (EnterpriseRFMAnalyzer._create_segments segment_thresholds rfm_df).
Proof.
  unfold EnterpriseRFMAnalyzer._create_segments.
  apply Forall_forall. intros row Hin.
  apply in_map_iff in Hin as (scored_row & <- & _). simpl.
  pose proof (enterprise_segment_enumerated segment_thresholds scored_row) as H.
  simpl in H.
  repeat destruct H as [H | H]; try contradiction;
    rewrite <- H; eexists; (split; [vm_compute; reflexivity | lia]).
Qed.

(** X8.  With the default thresholds and a frequency score of at least 1, the
    enterprise catch-all Others takes exactly the rows with r = 2 and
    f <= 2, or with r = 3, f = 1 and m <= 3; Lost takes exactly the rows
    with r <= 1 and f <= 2. *)
Theorem enterprise_others_and_lost (row : ScoredCustomer) :
  1 <= f_score row ->
  (EnterpriseRFMAnalyzer.segment_customers default_segment_thresholds row = "Others"
   <-> (r_score row = 2 /\ f_score row <= 2)
       \/ (r_score row = 3 /\ f_score row = 1 /\ m_score row <= 3))
  /\ (EnterpriseRFMAnalyzer.segment_customers default_segment_thresholds row = "Lost"
      <-> r_score row <= 1 /\ f_score row <= 2).
Proof.
  intros Hf.
  destruct default_thresholds_values as (Hr & Hf4 & Hm & Hrisk & Hlost).
  unfold EnterpriseRFMAnalyzer.segment_customers.
  rewrite Hr, Hf4, Hm, Hrisk, Hlost.
  repeat match goal with
         | |- context [if ?b then _ else _] => destruct b eqn:?
         end;
    (split; split; intros H; try discriminate H; try reflexivity;
     bool_to_Z; lia).
Qed.

Lemma enterprise_others_and_lost_witness :
  let row := mkScored (metrics_row 0 40 1 20) 3 1 2 "312" in
  (EnterpriseRFMAnalyzer.segment_customers default_segment_thresholds row = "Others"
   <-> (r_score row = 2 /\ f_score row <= 2)
       \/ (r_score row = 3 /\ f_score row = 1 /\ m_score row <= 3))
  /\ (EnterpriseRFMAnalyzer.segment_customers default_segment_thresholds row = "Lost"
      <-> r_score row <= 1 /\ f_score row <= 2).
Proof.
  apply (enterprise_others_and_lost (mkScored (metrics_row 0 40 1 20) 3 1 2 "312")).
  simpl. lia.
Defined.

(** ** More on the statistics stage *)

(** X9.  The statistics stage returns exactly on non-empty tables: on the
    empty table the Pareto step reads [iloc[-1]] of an empty column and an
    IndexError leaves [_analyze_segments]; on every other table, of any
    size, it returns. *)
Theorem _analyze_segments_returns_iff (segments_df : list PrioritizedCustomer) :
  match segments_df with
  | [] => EnterpriseRFMAnalyzer._analyze_segments segments_df = Raise IndexError
  | _ :: _ =>
      exists stats, EnterpriseRFMAnalyzer._analyze_segments segments_df = Ok stats
  end.
Proof.
  destruct segments_df as [| row rest]; [reflexivity |].
  apply _analyze_segments_returns. simpl. lia.
Qed.

Lemma segment_entry_fields (segments_df : list PrioritizedCustomer)
    (seg : string) (entry : SegmentStats) :
  EnterpriseRFMAnalyzer.segment_entry segments_df seg = Ok entry ->
  count entry
  = Z.of_nat (length (EnterpriseRFMAnalyzer.segment_rows segments_df seg))
  /\ revenue entry
     = series_sum (EnterpriseRFMAnalyzer.col_monetary
                     (EnterpriseRFMAnalyzer.segment_rows segments_df seg))
  /\ churn_risk entry
     = (if existsb (String.eqb seg) ["At Risk"; "Cannot Lose Them"; "Lost"]
        then "High" else "Low").
Proof.
  unfold EnterpriseRFMAnalyzer.segment_entry. intros H.
  apply bind_Ok in H as (pct & _ & H).
  apply bind_Ok in H as (top & _ & H).
  injection H as <-. simpl. auto.
Qed.

Lemma segment_loop_lookup (segments_df : list PrioritizedCustomer)
    (todo : list string) :
  forall (acc per_segment : gmap string SegmentStats),
    EnterpriseRFMAnalyzer.segment_loop segments_df todo acc = Ok per_segment ->
    forall seg : string,
      (In seg todo ->
       exists entry,
         EnterpriseRFMAnalyzer.segment_entry segments_df seg = Ok entry
         /\ per_segment !! seg = Some entry)
      /\ (~ In seg todo -> per_segment !! seg = acc !! seg).
Proof.
  induction todo as [| s rest IH]; intros acc per_segment H seg; simpl in H.
  - injection H as <-. split; [intros [] | reflexivity].
  - apply bind_Ok in H as (entry & Hentry & H).
    destruct (IH _ _ H seg) as (Hin & Hout).
    destruct (in_dec String.string_dec seg rest) as [Hrest | Hrest].
    + split; [intros _; now apply Hin | simpl; tauto].
    + split.
      * intros [-> | Hin']; [| contradiction].
        exists entry. split; [exact Hentry |].
        rewrite (Hout Hrest). apply lookup_insert_eq.
      * simpl. intros Hno. rewrite (Hout Hrest).
        apply lookup_insert_ne. tauto.
Qed.

Lemma count_partition {A : Type} (key : A -> string) (l : list A)
    (keys : list string) :
  NoDup keys ->
  fold_right Nat.add 0%nat
    (map (fun k => length (List.filter (fun a => String.eqb (key a) k) l)) keys)
  = length (List.filter (fun a => existsb (String.eqb (key a)) keys) l).
Proof.
  induction 1 as [| k ks Hk _ IH]; simpl.
  - induction l; simpl; auto.
  - rewrite IH. clear IH.
    induction l as [| a t IHl]; simpl; [reflexivity |].
    destruct (String.eqb_spec (key a) k) as [Heq | Hne]; simpl.
    + assert (Hks : existsb (String.eqb (key a)) ks = false).
      { destruct (existsb _ ks) eqn:E; [| reflexivity].
        apply existsb_exists in E as (b & Hb & Hbeq).
        apply String.eqb_eq in Hbeq. congruence. }
      rewrite Hks. lia.
    + destruct (existsb (String.eqb (key a)) ks); simpl; lia.
Qed.

(** X10.  The per-segment dictionary has an entry exactly for the segments
    present in the table; an entry's count is the number of rows of its
    segment and its revenue their monetary sum; and the counts of all
    entries add up to the total number of customers. *)
Theorem segment_counts_partition (segments_df : list PrioritizedCustomer)
    (stats : SegmentAnalysis) :
  EnterpriseRFMAnalyzer._analyze_segments segments_df = Ok stats ->
  total_customers stats = Z.of_nat (length segments_df)
  /\ (forall seg : string,
        match segments stats !! seg with
        | Some entry =>
            In seg (EnterpriseRFMAnalyzer.col_segment segments_df)
            /\ count entry
               = Z.of_nat (length (EnterpriseRFMAnalyzer.segment_rows segments_df seg))
            /\ revenue entry
               = series_sum (EnterpriseRFMAnalyzer.col_monetary
                               (EnterpriseRFMAnalyzer.segment_rows segments_df seg))
        | None => ~ In seg (EnterpriseRFMAnalyzer.col_segment segments_df)
        end)
  /\ fold_right Z.add 0
       (map (fun seg => match segments stats !! seg with
                        | Some entry => count entry
                        | None => 0
                        end)
            (unique_strings [] (EnterpriseRFMAnalyzer.col_segment segments_df)))
     = total_customers stats.
Proof.
  unfold EnterpriseRFMAnalyzer._analyze_segments. intros H.
  apply bind_Ok in H as (per_segment & Hloop & H).
  apply bind_Ok in H as (pareto & _ & H).
  injection H as <-. simpl.
  set (present := unique_strings [] (EnterpriseRFMAnalyzer.col_segment segments_df)).
  assert (Hpresent : forall seg,
             In seg present <-> In seg (EnterpriseRFMAnalyzer.col_segment segments_df)).
  { intros seg. subst present. rewrite in_unique_strings_iff. simpl. tauto. }
  assert (Hlookup : forall seg,
             match per_segment !! seg with
             | Some entry =>
                 In seg present
                 /\ EnterpriseRFMAnalyzer.segment_entry segments_df seg = Ok entry
             | None => ~ In seg present
             end).
  { intros seg.
    destruct (segment_loop_lookup _ _ _ _ Hloop seg) as (Hin & Hout).
    destruct (in_dec String.string_dec seg present) as [Hp | Hp].
    - destruct (Hin Hp) as (entry & Hentry & ->). auto.
    - rewrite (Hout Hp), lookup_empty. exact Hp. }
  split; [reflexivity |]. split.
  - intros seg. specialize (Hlookup seg).
    destruct (per_segment !! seg) as [entry |].
    + destruct Hlookup as (Hp & Hentry).
      apply segment_entry_fields in Hentry as (Hc & Hr & _).
      split; [now apply Hpresent | auto].
    + now rewrite <- Hpresent.
  - transitivity
      (Z.of_nat
         (fold_right Nat.add 0%nat
            (map (fun seg =>
                    length (EnterpriseRFMAnalyzer.segment_rows segments_df seg))
                 present))).
    + assert (Hkeys : forall keys : list string,
                 (forall seg, In seg keys -> In seg present) ->
                 fold_right Z.add 0
                   (map (fun seg => match per_segment !! seg with
                                    | Some entry => count entry
                                    | None => 0
                                    end) keys)
                 = Z.of_nat
                     (fold_right Nat.add 0%nat
                        (map (fun seg =>
                                length (EnterpriseRFMAnalyzer.segment_rows
                                          segments_df seg)) keys))).
      { induction keys as [| seg rest IH]; intros Hsub; [reflexivity |].
        cbn [map fold_right]. rewrite IH by (intros s Hs; apply Hsub; now right).
        specialize (Hlookup seg).
        destruct (per_segment !! seg) as [entry |].
        - destruct Hlookup as (_ & Hentry).
          apply segment_entry_fields in Hentry as (-> & _). lia.
        - exfalso. apply Hlookup, Hsub. now left. }
      apply Hkeys. auto.
    + f_equal. unfold EnterpriseRFMAnalyzer.segment_rows.
      rewrite (count_partition (fun row => segment (segmented row)))
        by apply unique_strings_NoDup.
      rewrite filter_all; [reflexivity |].
      apply Forall_forall. intros row Hrow.
      apply existsb_exists. exists (segment (segmented row)).
      split; [| apply String.eqb_refl].
      apply Hpresent. unfold EnterpriseRFMAnalyzer.col_segment.
      now apply (in_map (fun row => segment (segmented row))).
Qed.

Lemma segment_counts_partition_witness :
  exists stats,
    EnterpriseRFMAnalyzer._analyze_segments sixty_forty = Ok stats
    /\ total_customers stats = Z.of_nat (length sixty_forty)
    /\ (forall seg : string,
          match segments stats !! seg with
          | Some entry =>
              In seg (EnterpriseRFMAnalyzer.col_segment sixty_forty)
              /\ count entry
                 = Z.of_nat (length (EnterpriseRFMAnalyzer.segment_rows sixty_forty seg))
              /\ revenue entry
                 = series_sum (EnterpriseRFMAnalyzer.col_monetary
                                 (EnterpriseRFMAnalyzer.segment_rows sixty_forty seg))
          | None => ~ In seg (EnterpriseRFMAnalyzer.col_segment sixty_forty)
          end)
    /\ fold_right Z.add 0
         (map (fun seg => match segments stats !! seg with
                          | Some entry => count entry
                          | None => 0
                          end)
              (unique_strings [] (EnterpriseRFMAnalyzer.col_segment sixty_forty)))
       = total_customers stats.
Proof.
  eexists. split; [vm_compute; reflexivity |].
  apply (segment_counts_partition sixty_forty).
  vm_compute. reflexivity.
Defined.

(** ** More on the Pareto statistics *)

Lemma Qeq_bool_false (a b : Q) : ~ (a == b)%Q -> Qeq_bool a b = false.
Proof.
  intros H. destruct (Qeq_bool a b) eqn:E; [| reflexivity].
  apply Qeq_bool_iff in E. contradiction.
Qed.

Lemma inject_Z_nonzero (z : Z) : z <> 0 -> Qeq_bool (inject_Z z) 0 = false.
Proof.
  intros Hz. apply Qeq_bool_false. unfold Qeq. simpl. lia.
Qed.

(** X27.  Whenever [_calculate_pareto_distribution] returns, the share of
    customers it reports for 80% of revenue is a number between 0 and 100:
    it is a count of rows of the table, divided by the number of rows. *)
Theorem pareto_share_within_0_100 (segments_df : list PrioritizedCustomer)
    (pareto : ParetoStats) :
  EnterpriseRFMAnalyzer._calculate_pareto_distribution segments_df = Ok pareto ->
  exists share,
    customers_for_80_revenue_pct pareto = Some share /\ (0 <= share <= 100)%Q.
Proof.
  intros H.
  assert (Hn : (1 <= length segments_df)%nat).
  { destruct segments_df; [vm_compute in H; discriminate | simpl; lia]. }
  unfold EnterpriseRFMAnalyzer._calculate_pareto_distribution in H.
  set (sorted_customers := sort_by EnterpriseRFMAnalyzer.monetary_desc segments_df) in *.
  assert (Hlen : length sorted_customers = length segments_df)
    by apply sort_by_length.
  set (col := EnterpriseRFMAnalyzer.col_monetary sorted_customers) in *.
  assert (Hcum : length (cumsum col) = length segments_df).
  { unfold cumsum. subst col. unfold EnterpriseRFMAnalyzer.col_monetary.
    now rewrite cumsum_from_length, length_map. }
  apply bind_Ok in H as (at_top_20 & _ & H). injection H as <-. simpl.
  set (kept := List.filter
                 (fun c => cell_leb c (Some (series_sum col * (8 # 10))%Q))
                 (cumsum col)).
  assert (Hkept : (length kept <= length segments_df)%nat).
  { rewrite <- Hcum. apply filter_length_le. }
  unfold np_mul, np_div, num. rewrite Hlen, inject_Z_nonzero by lia.
  eexists. split; [reflexivity |].
  set (c := Z.of_nat (length kept)). set (n := Z.of_nat (length segments_df)).
  assert (Hc : (0 <= inject_Z c)%Q) by (rewrite <- (Zle_Qle 0); subst c; lia).
  assert (Hnq : (0 < inject_Z n)%Q) by (rewrite <- (Zlt_Qlt 0); subst n; lia).
  assert (Hcn : (inject_Z c <= inject_Z n)%Q) by (rewrite <- Zle_Qle; subst c n; lia).
  assert (Hlow : (0 <= inject_Z c / inject_Z n)%Q).
  { apply Qle_shift_div_l; [exact Hnq | lra]. }
  assert (Hhigh : (inject_Z c / inject_Z n <= 1)%Q).
  { apply Qle_shift_div_r; [exact Hnq | lra]. }
  set (t := (inject_Z c / inject_Z n)%Q) in *.
  change (inject_Z 100) with 100%Q. lra.
Qed.

Lemma pareto_share_within_0_100_witness :
  exists pareto share,
    EnterpriseRFMAnalyzer._calculate_pareto_distribution sixty_forty = Ok pareto
    /\ customers_for_80_revenue_pct pareto = Some share
    /\ (0 <= share <= 100)%Q.
Proof.
  eexists.
  assert (H : EnterpriseRFMAnalyzer._calculate_pareto_distribution sixty_forty
              = Ok _) by (vm_compute; reflexivity).
  destruct (pareto_share_within_0_100 sixty_forty _ H) as (share & Hs & Hb).
  exists share. split; [exact H |]. split; assumption.
Defined.

(** ** When the cuts return *)


Lemma Qltb_lt (a b : Q) : Qltb a b = true <-> (a < b)%Q.
Proof.
  unfold Qltb. rewrite negb_true_iff. split.
  - intros H. apply Qnot_le_lt. intros Hle. apply Qle_bool_iff in Hle. congruence.
  - intros H. destruct (Qle_bool b a) eqn:E; [| reflexivity].
    apply Qle_bool_iff in E. lra.
Qed.

Lemma dropna_Some (values : list Q) : dropna (map Some values) = values.
Proof. induction values as [| v t IH]; simpl; [reflexivity | now rewrite IH]. Qed.

Lemma sort_Qle_StronglySorted (l : list Q) :
  StronglySorted (fun a b => Qle_bool a b = true) (sort_by Qle_bool l).
Proof.
  apply Sorted_StronglySorted.
  - intros a b c Hab Hbc. apply Qle_bool_iff in Hab, Hbc. apply Qle_bool_iff. lra.
  - apply sort_by_Sorted. intros a b.
    destruct (Qlt_le_dec b a); [right | left]; apply Qle_bool_iff; lra.
Qed.

Lemma StronglySorted_last {A : Type} (R : A -> A -> Prop) (front : list A) (b : A) :
  StronglySorted R (front ++ [b]) -> Forall (fun a => R a b) front.
Proof.
  induction front as [| a t IH]; simpl; intros H; [constructor |].
  apply StronglySorted_inv in H as (Ht & Ha). constructor.
  - rewrite Forall_forall in Ha. apply Ha, in_or_app. right. now left.
  - now apply IH.
Qed.

Lemma extrema_bound_values (x : column) (mn mx : Q) :
  nanmin x = Some mn -> nanmax x = Some mx ->
  In mn (dropna x) /\ In mx (dropna x)
  /\ Forall (fun v => (mn <= v <= mx)%Q) (dropna x).
Proof.
  unfold nanmin, nanmax. set (values := dropna x).
  pose proof (sort_Qle_StronglySorted values) as Hs.
  pose proof (in_sort_by_iff Qle_bool) as Hin.
  destruct (sort_by Qle_bool values) as [| a t] eqn:E; [discriminate |].
  intros Hmn. injection Hmn as ->.
  destruct (rev (mn :: t)) as [| b u] eqn:Er; [discriminate |].
  intros Hmx. injection Hmx as ->.
  assert (Hshape : mn :: t = rev u ++ [mx]).
  { rewrite <- (rev_involutive (mn :: t)), Er. reflexivity. }
  assert (Hlow : Forall (fun v => Qle_bool mn v = true) (mn :: t)).
  { constructor; [apply Qle_bool_iff; lra |].
    now apply StronglySorted_inv in Hs as (_ & Hs). }
  assert (Hhigh : Forall (fun v => Qle_bool v mx = true) (mn :: t)).
  { rewrite Hshape in Hs |- *. apply Forall_app. split.
    - now apply (StronglySorted_last (fun a b => Qle_bool a b = true)).
    - repeat constructor. apply Qle_bool_iff. lra. }
  split; [apply (Hin mn values); rewrite E; now left |].
  split; [apply (Hin mx values); rewrite E, Hshape; apply in_or_app; right; now left |].
  apply Forall_forall. intros v Hv. apply (Hin v values) in Hv. rewrite E in Hv.
  rewrite Forall_forall in Hlow, Hhigh.
  specialize (Hlow v Hv). specialize (Hhigh v Hv).
  apply Qle_bool_iff in Hlow, Hhigh. auto.
Qed.

Ltac closed_Q_constants H :=
  repeat match type of H with
         | context [inject_Z ?z] =>
             let v := eval vm_compute in (inject_Z z) in
             change (inject_Z z) with v in H
         end;
  unfold Qdiv in H;
  repeat match type of H with
         | context [Qinv (?n # ?d)] =>
             let v := eval vm_compute in (Qinv (n # d)) in
             change (Qinv (n # d)) with v in H
         end.

Ltac edges_differ Hne :=
  repeat constructor; apply Qeq_bool_false;
  let H := fresh "H" in
  intros H; apply Hne; closed_Q_constants H; lra.

(** The edges [np.linspace] puts between two different end points are
    pairwise different (for the bin counts 3, 4 and 5 that matter below). *)
Lemma linspace_distinct (a b : Q) (K : Z) :
  K = 3 \/ K = 4 \/ K = 5 -> ~ (a == b)%Q ->
  cells_distinct (map Some (linspace a b (Z.to_nat (K + 1)))).
Proof.
  intros [-> | [-> | ->]] Hne; unfold linspace, cells_distinct;
    [change (Z.to_nat (3 + 1)) with 4%nat
    | change (Z.to_nat (4 + 1)) with 5%nat
    | change (Z.to_nat (5 + 1)) with 6%nat];
    cbn [seq map]; edges_differ Hne.
Qed.

(** They stay pairwise different when [pd.cut] lowers the first edge by 0.1%
    of the range. *)
Lemma linspace_adjusted_distinct (mn mx : Q) (K : Z) :
  K = 3 \/ K = 4 \/ K = 5 -> ~ (mn == mx)%Q ->
  exists b0 bs,
    linspace mn mx (Z.to_nat (K + 1)) = b0 :: bs
    /\ cells_distinct (map Some ((b0 - (mx - mn) * (1 # 1000))%Q :: bs)).
Proof.
  intros [-> | [-> | ->]] Hne; unfold linspace, cells_distinct;
    [change (Z.to_nat (3 + 1)) with 4%nat
    | change (Z.to_nat (4 + 1)) with 5%nat
    | change (Z.to_nat (5 + 1)) with 6%nat];
    cbn [seq map]; do 2 eexists; (split; [reflexivity |]);
    cbn [map]; edges_differ Hne.
Qed.

Lemma linspace_length (a b : Q) (num : nat) : length (linspace a b num) = num.
Proof. unfold linspace. now rewrite length_map, length_seq. Qed.

Lemma same_value_adjust_positive (m : Q) : (0 < same_value_adjust m)%Q.
Proof.
  unfold same_value_adjust. destruct (Qeq_bool m 0) eqn:E; [reflexivity |].
  assert (Hne : ~ (m == 0)%Q).
  { intros H. apply Qeq_bool_iff in H. congruence. }
  apply Qabs_case; intros Hm.
  - assert (0 < m)%Q by (destruct (Qlt_le_dec 0 m); [assumption | exfalso; apply Hne; lra]).
    lra.
  - assert (m < 0)%Q by (destruct (Qlt_le_dec m 0); [assumption | exfalso; apply Hne; lra]).
    lra.
Qed.

Lemma nan_extrema (x : column) :
  has_value x -> exists mn mx, nanmin x = Some mn /\ nanmax x = Some mx.
Proof.
  unfold has_value, nanmin, nanmax. intros Hne.
  assert (Hlen : length (sort_by Qle_bool (dropna x)) <> 0%nat).
  { rewrite sort_by_length. destruct (dropna x); [congruence | discriminate]. }
  destruct (sort_by Qle_bool (dropna x)) as [| v t] eqn:E; [now destruct Hlen |].
  destruct (rev (v :: t)) as [| w u] eqn:Er.
  - apply (f_equal (@length Q)) in Er. rewrite length_rev in Er. discriminate.
  - eauto.
Qed.

Lemma unique_from_distinct (l seen : list cell) :
  cells_distinct l ->
  Forall (fun c => Forall (fun s => cell_same c s = false) seen) l ->
  unique_from seen l = l.
Proof.
  unfold cells_distinct. intros Hd. revert seen.
  induction Hd as [| c t Hc _ IH]; intros seen Hseen; [reflexivity |].
  apply Forall_cons_iff in Hseen as (Hcs & Hts). simpl.
  assert (E : existsb (cell_same c) seen = false).
  { destruct (existsb (cell_same c) seen) eqn:E; [| reflexivity].
    apply existsb_exists in E as (s & Hs & Hsame).
    rewrite Forall_forall in Hcs. rewrite (Hcs s Hs) in Hsame. discriminate. }
  rewrite E. f_equal. apply IH.
  rewrite Forall_forall in *. intros d Hd'.
  constructor; [exact (Hc d Hd') | exact (Hts d Hd')].
Qed.

Lemma unique_distinct (l : list cell) : cells_distinct l -> unique l = l.
Proof.
  intros Hd. apply unique_from_distinct; [exact Hd |].
  apply Forall_forall. intros c _. constructor.
Qed.

Lemma _bins_to_cuts_returns x bins labels lowest dup :
  cells_distinct bins -> has_duplicates labels = false ->
  Z.of_nat (length labels) = Z.of_nat (length bins) - 1 ->
  exists c, _bins_to_cuts x bins labels lowest dup = Ok c /\ categories c = labels.
Proof.
  intros Hd Hlab Hlen. unfold _bins_to_cuts.
  rewrite (unique_distinct bins Hd), Nat.ltb_irrefl. simpl bind.
  rewrite Hlab. apply Z.eqb_eq in Hlen. rewrite Hlen. simpl.
  eexists. split; reflexivity.
Qed.

Lemma _nbins_to_bins_returns (x : column) (K : Z) :
  K = 3 \/ K = 4 \/ K = 5 -> has_value x ->
  exists bins, _nbins_to_bins x K = Ok bins
               /\ cells_distinct bins
               /\ Z.of_nat (length bins) = K + 1.
Proof.
  intros HK Hx. unfold _nbins_to_bins.
  assert (HK1 : (K <? 1) = false) by (apply Z.ltb_ge; lia). rewrite HK1.
  assert (Hlen : (length x =? 0)%nat = false).
  { apply Nat.eqb_neq. intros H0. apply length_zero_iff_nil in H0. subst x.
    now apply Hx. }
  rewrite Hlen.
  destruct (nan_extrema x Hx) as (mn & mx & -> & ->).
  destruct (Qeq_bool mn mx) eqn:E.
  - apply Qeq_bool_iff in E.
    pose proof (same_value_adjust_positive mn).
    pose proof (same_value_adjust_positive mx).
    eexists. split; [reflexivity |]. split.
    + apply linspace_distinct; [exact HK | lra].
    + rewrite length_map, linspace_length. lia.
  - assert (Hne : ~ (mn == mx)%Q).
    { intros H. apply Qeq_bool_iff in H. congruence. }
    destruct (linspace_adjusted_distinct mn mx K HK Hne) as (b0 & bs & Hl & Hd).
    pose proof (linspace_length mn mx (Z.to_nat (K + 1))) as Hn.
    rewrite Hl in *. eexists. split; [reflexivity |]. split; [exact Hd |].
    rewrite length_map. simpl length in *. lia.
Qed.

Lemma cut_returns (x : column) (K : Z) (labels : list Z) (dup : bool) :
  K = 3 \/ K = 4 \/ K = 5 -> has_value x ->
  has_duplicates labels = false -> Z.of_nat (length labels) = K ->
  exists c, cut x K labels dup = Ok c /\ categories c = labels.
Proof.
  intros HK Hx Hlab Hlen. unfold cut.
  destruct (_nbins_to_bins_returns x K HK Hx) as (bins & -> & Hd & Hb).
  simpl bind. apply _bins_to_cuts_returns; [assumption | assumption | lia].
Qed.

Lemma _bins_to_cuts_Ok x bins labels lowest dup c :
  _bins_to_cuts x bins labels lowest dup = Ok c -> categories c = labels.
Proof.
  unfold _bins_to_cuts. intros H. apply bind_Ok in H as (bins' & _ & H).
  destruct (has_duplicates labels); [discriminate |].
  destruct (negb _); [discriminate |]. now injection H as <-.
Qed.

Lemma _bins_to_cuts_Raise x bins labels lowest dup e :
  _bins_to_cuts x bins labels lowest dup = Raise e -> e = ValueError.
Proof.
  unfold _bins_to_cuts.
  destruct ((length (unique bins) <? length bins)%nat && negb (length bins =? 2)%nat);
    [destruct dup |]; simpl bind;
    try (intros H; now injection H as <-);
    (destruct (has_duplicates labels); [intros H; now injection H as <- |]);
    (destruct (negb _); [intros H; now injection H as <- | discriminate]).
Qed.

Lemma qcut_Raise x q labels dup e :
  qcut x q labels dup = Raise e -> e = ValueError.
Proof. apply _bins_to_cuts_Raise. Qed.

Lemma cut_categories x K labels dup c :
  cut x K labels dup = Ok c -> categories c = labels.
Proof.
  unfold cut. intros H. apply bind_Ok in H as (bins & _ & H).
  exact (_bins_to_cuts_Ok _ _ _ _ _ _ H).
Qed.

Lemma unique_from_all_nan (n : nat) :
  unique_from [None] (repeat None n) = [].
Proof. induction n as [| n IH]; simpl; [reflexivity | exact IH]. Qed.

(** Edges that are all NaN never give a categorical when there are labels. *)
Lemma nan_edges_raise x (n : nat) labels lowest dup :
  (3 <= n)%nat -> labels <> [] ->
  _bins_to_cuts x (repeat None n) labels lowest dup = Raise ValueError.
Proof.
  intros Hn Hlab. unfold _bins_to_cuts.
  destruct n as [| [| [| n']]]; try lia.
  assert (Hu : unique (repeat None (S (S (S n')))) = [None]).
  { unfold unique. simpl. now rewrite unique_from_all_nan. }
  rewrite Hu, repeat_length. destruct dup; simpl bind; [| reflexivity].
  destruct (has_duplicates labels); [reflexivity |].
  destruct labels as [| a t]; [congruence |]. reflexivity.
Qed.

Lemma no_value (x : column) : ~ has_value x -> dropna x = [].
Proof.
  unfold has_value. destruct (dropna x); [reflexivity |].
  intros H. exfalso. apply H. discriminate.
Qed.

Lemma quantile_no_value (x : column) (qs : list Q) :
  dropna x = [] -> quantile x qs = repeat None (length qs).
Proof.
  intros Hnone. unfold quantile. rewrite Hnone. simpl sort_by.
  induction qs as [| q t IH]; simpl; [reflexivity | now rewrite IH].
Qed.

Lemma qcut_Ok_has_value x (q : Z) labels c :
  2 <= q -> labels <> [] -> qcut x q labels true = Ok c -> has_value x.
Proof.
  intros Hq Hlab H Hnone. unfold qcut in H.
  rewrite (quantile_no_value x _ Hnone), linspace_length in H.
  rewrite nan_edges_raise in H by (assumption || lia). discriminate.
Qed.

Lemma cut_Ok_has_value x (K : Z) labels dup c :
  2 <= K -> labels <> [] -> cut x K labels dup = Ok c -> has_value x.
Proof.
  intros HK Hlab H Hnone. unfold cut, _nbins_to_bins in H.
  destruct (K <? 1); [discriminate |].
  destruct (length x =? 0)%nat; [discriminate |].
  unfold nanmin in H. rewrite Hnone in H. simpl in H.
  rewrite nan_edges_raise in H by (assumption || lia). discriminate.
Qed.

Lemma rank_from_has_value (all seen rest : column) :
  has_value (rank_from all seen rest) <-> has_value rest.
Proof.
  unfold has_value. revert seen.
  induction rest as [| c t IH]; intros seen; [reflexivity |].
  destruct c as [v |]; simpl.
  - split; intros _; discriminate.
  - apply IH.
Qed.

Lemma rank_first_has_value (x : column) : has_value (rank_first x) <-> has_value x.
Proof. apply rank_from_has_value. Qed.

Lemma has_value_dec (x : column) : has_value x \/ ~ has_value x.
Proof.
  unfold has_value. destruct (dropna x); [right; tauto | left; discriminate].
Qed.

(** One column of the simple scorer: quantile cut, else equal-width cut and
    fill.  Neither can bin a column without a value. *)
Lemma simple_column_has_value (x x' : column) (labels : list Z) (c : Categorical) :
  (has_value x' -> has_value x) -> labels <> [] ->
  try_except (qcut x 5 labels true) [ValueError; TypeError]
    (c0 <- cut x' 5 labels true ;; Categorical_fillna c0 3) = Ok c ->
  has_value x.
Proof.
  intros Hsame Hlab H. apply try_except_Ok in H as [H | H].
  - eapply qcut_Ok_has_value; [| exact Hlab | exact H]. lia.
  - apply bind_Ok in H as (c0 & Hcut & _). apply Hsame.
    eapply cut_Ok_has_value; [| exact Hlab | exact Hcut]. lia.
Qed.

(** X13.  The simple scorer returns a table only if each of the three
    metric columns holds at least one value that is not missing: on an
    empty table, or when a whole column is missing, the quantile cut fails
    and the equal-width cut in the handler raises too. *)
Theorem assign_scores_needs_values (rfm_df : list CustomerMetrics)
    (out : list ScoredCustomer) :
  RFMAnalyzer.assign_scores rfm_df = Ok out ->
  has_value (map recency rfm_df)
  /\ has_value (map frequency rfm_df)
  /\ has_value (map monetary rfm_df).
Proof.
  unfold RFMAnalyzer.assign_scores. intros H.
  apply bind_Ok in H as (r & Er & H).
  apply bind_Ok in H as (f & Ef & H).
  apply bind_Ok in H as (m & Em & _).
  assert (Vr : has_value (map recency rfm_df)).
  { eapply simple_column_has_value; [| | exact Er]; [tauto | discriminate]. }
  assert (Vf : has_value (rank_first (map frequency rfm_df))).
  { eapply simple_column_has_value; [| | exact Ef];
      [apply rank_first_has_value | discriminate]. }
  assert (Vm : has_value (map monetary rfm_df)).
  { eapply simple_column_has_value; [| | exact Em]; [tauto | discriminate]. }
  apply (proj1 (rank_first_has_value _)) in Vf. auto.
Qed.

Lemma assign_scores_needs_values_witness :
  has_value (map recency three_customers)
  /\ has_value (map frequency three_customers)
  /\ has_value (map monetary three_customers).
Proof.
  eapply (assign_scores_needs_values three_customers).
  vm_compute. reflexivity.
Defined.

Lemma n_bins_for_small (n : Z) :
  0 <= n < 60 -> EnterpriseRFMAnalyzer.n_bins_for n = 2.
Proof.
  intros Hn. unfold EnterpriseRFMAnalyzer.n_bins_for.
  pose proof (Z.div_lt_upper_bound n 20 3). lia.
Qed.

Lemma n_bins_for_large (n : Z) :
  60 <= n ->
  EnterpriseRFMAnalyzer.n_bins_for n = 3 \/ EnterpriseRFMAnalyzer.n_bins_for n = 4
  \/ EnterpriseRFMAnalyzer.n_bins_for n = 5.
Proof.
  intros Hn. unfold EnterpriseRFMAnalyzer.n_bins_for.
  pose proof (Z.div_le_lower_bound n 20 3). lia.
Qed.

(** With two bins the fallback of the enterprise scorer cannot finish a
    column: the fill value 3 is not a category. *)
Lemma fallback_two_bins_raises (x : column) (labels : list Z) (c : Categorical) :
  existsb (Z.eqb 3) labels = false ->
  (c0 <- cut x 2 labels false ;; Categorical_fillna c0 3) <> Ok c.
Proof.
  intros H3 H. apply bind_Ok in H as (c0 & Hcut & Hfill).
  apply cut_categories in Hcut. unfold Categorical_fillna in Hfill.
  rewrite Hcut, H3 in Hfill. discriminate.
Qed.

(** X14.  With fewer than 60 customers (two bins) and a metric value
    missing somewhere, the enterprise scorer can only return through the
    quantile path: whenever it returns a table, all three quantile cuts
    succeeded.  If one of them fails, the rank-based fallback raises too,
    for the missing cell has to be filled with 3, which is not one of the
    categories 1 and 2. *)
Theorem small_population_needs_quantile_path (rfm_df : list CustomerMetrics)
    (out : list ScoredCustomer) :
  (length rfm_df < 60)%nat ->
  In None (map recency rfm_df) \/ In None (map frequency rfm_df)
  \/ In None (map monetary rfm_df) ->
  EnterpriseRFMAnalyzer._assign_rfm_scores rfm_df = Ok out ->
  exists r f m,
    qcut (map recency rfm_df) 2 [2; 1] true = Ok r
    /\ qcut (rank_first (map frequency rfm_df)) 2 [1; 2] true = Ok f
    /\ qcut (map monetary rfm_df) 2 [1; 2] true = Ok m.
Proof.
  intros Hn _ H. unfold EnterpriseRFMAnalyzer._assign_rfm_scores in H.
  rewrite n_bins_for_small in H by lia.
  change (range_down 2) with [2; 1] in H. change (range_up 2) with [1; 2] in H.
  apply bind_Ok in H as (scores & Hscores & _).
  apply try_except_Ok in Hscores as [H | H].
  - apply bind_Ok in H as (r & Hr & H).
    apply bind_Ok in H as (f & Hf & H).
    apply bind_Ok in H as (m & Hm & _). exists r, f, m. auto.
  - apply bind_Ok in H as (r & Hr & _).
    now apply fallback_two_bins_raises in Hr.
Qed.

(** Three customers, the last without a monetary value. *)
Lemma small_population_needs_quantile_path_witness :
  let rfm_df := [metrics_row 0 1 1 10; metrics_row 1 2 2 20;
                 mkMetrics "2" (num 3) (num 3) None] in
  exists out r f m,
    EnterpriseRFMAnalyzer._assign_rfm_scores rfm_df = Ok out
    /\ qcut (map recency rfm_df) 2 [2; 1] true = Ok r
    /\ qcut (rank_first (map frequency rfm_df)) 2 [1; 2] true = Ok f
    /\ qcut (map monetary rfm_df) 2 [1; 2] true = Ok m.
Proof.
  intros rfm_df. eexists.
  assert (H : EnterpriseRFMAnalyzer._assign_rfm_scores rfm_df = Ok _)
    by (vm_compute; reflexivity).
  destruct (small_population_needs_quantile_path rfm_df _
              ltac:(simpl; lia) ltac:(right; right; simpl; auto) H)
    as (r & f & m & Hr & Hf & Hm).
  exists r, f, m. auto.
Defined.

Lemma range_labels (K : Z) :
  K = 3 \/ K = 4 \/ K = 5 ->
  has_duplicates (range_up K) = false /\ has_duplicates (range_down K) = false
  /\ Z.of_nat (length (range_up K)) = K /\ Z.of_nat (length (range_down K)) = K
  /\ existsb (Z.eqb 3) (range_up K) = true
  /\ existsb (Z.eqb 3) (range_down K) = true.
Proof. intros [-> | [-> | ->]]; repeat split; reflexivity. Qed.

Lemma fallback_column_returns (x : column) (K : Z) (labels : list Z) :
  K = 3 \/ K = 4 \/ K = 5 -> has_value x ->
  has_duplicates labels = false -> Z.of_nat (length labels) = K ->
  existsb (Z.eqb 3) labels = true ->
  exists c, (c0 <- cut (rank_first x) K labels false ;; Categorical_fillna c0 3) = Ok c.
Proof.
  intros HK Hx Hdup Hlen H3.
  destruct (cut_returns (rank_first x) K labels false) as (c0 & -> & Hcat); auto.
  { now apply rank_first_has_value. }
  simpl bind. unfold Categorical_fillna. rewrite Hcat, H3. eauto.
Qed.

Lemma bind_Raise {A B : Type} (c : result A) (k : A -> result B) (e : exn) :
  bind c k = Raise e -> c = Raise e \/ exists a, c = Ok a /\ k a = Raise e.
Proof.
  destruct c as [a | e']; simpl; intros H; [right; eauto | left].
  now injection H as ->.
Qed.

Lemma try_except_ValueError {A : Type} (body handler : result A) :
  (forall e, body = Raise e -> e = ValueError) ->
  (exists a, handler = Ok a) ->
  exists a, try_except body [ValueError] handler = Ok a.
Proof.
  intros Hbody (a & Ha). destruct body as [b | e]; simpl; [eauto |].
  rewrite (Hbody e eq_refl). simpl. eauto.
Qed.

(** X15.  From 60 customers on (three bins or more), the enterprise scorer
    returns a table whenever each metric column holds at least one value:
    if a quantile cut fails, the rank-based fallback always succeeds. *)
Theorem large_population_always_scored (rfm_df : list CustomerMetrics) :
  (60 <= length rfm_df)%nat ->
  has_value (map recency rfm_df) ->
  has_value (map frequency rfm_df) ->
  has_value (map monetary rfm_df) ->
  exists out, EnterpriseRFMAnalyzer._assign_rfm_scores rfm_df = Ok out.
Proof.
  intros Hn Vr Vf Vm. unfold EnterpriseRFMAnalyzer._assign_rfm_scores.
  set (K := EnterpriseRFMAnalyzer.n_bins_for (Z.of_nat (length rfm_df))).
  assert (HK : K = 3 \/ K = 4 \/ K = 5) by (apply n_bins_for_large; lia).
  destruct (range_labels K HK) as (Du & Dd & Lu & Ld & Tu & Td).
  match goal with
  | |- context [try_except ?body ?classes ?handler] =>
      destruct (try_except_ValueError body handler) as ([[r f] m] & ->)
  end.
  - intros e H.
    apply bind_Raise in H as [H | (r & _ & H)]; [now apply qcut_Raise in H |].
    apply bind_Raise in H as [H | (f & _ & H)]; [now apply qcut_Raise in H |].
    apply bind_Raise in H as [H | (m & _ & H)]; [now apply qcut_Raise in H |].
    discriminate.
  - destruct (fallback_column_returns (map recency rfm_df) K (range_down K))
      as (r & ->); auto.
    destruct (fallback_column_returns (map frequency rfm_df) K (range_up K))
      as (f & ->); auto.
    destruct (fallback_column_returns (map monetary rfm_df) K (range_up K))
      as (m & ->); auto.
    simpl. eauto.
  - simpl. eauto.
Qed.

Lemma large_population_always_scored_witness :
  exists out, EnterpriseRFMAnalyzer._assign_rfm_scores eighty_customers = Ok out.
Proof.
  apply (large_population_always_scored eighty_customers).
  - simpl. lia.
  - vm_compute. discriminate.
  - vm_compute. discriminate.
  - vm_compute. discriminate.
Defined.

(** ** The number of bins at work *)









(** *** Ranks *)










(** *** The edges in use *)





(** *** Quantile edges *)









(** *** The top score of each column *)












(** Five bins at work on a hundred customers, two on twenty. *)
Example enterprise_bins_at_work :
  (match score_assignment Enterprise hundred_customers with
   | Ok out => Some (fold_right Z.max 0 (map r_score out),
                     fold_right Z.max 0 (map f_score out),
                     fold_right Z.max 0 (map m_score out))
   | Raise _ => None
   end) = Some (5, 5, 5)
  /\ (match score_assignment Enterprise twenty_customers with
      | Ok out => Some (fold_right Z.max 0 (map r_score out),
                        fold_right Z.max 0 (map f_score out),
                        fold_right Z.max 0 (map m_score out))
      | Raise _ => None
      end) = Some (2, 2, 2).
Proof. split; vm_compute; reflexivity. Qed.


(** ** The simple analyzer's metrics and [run_rfm_analysis] *)

Lemma calculate_rfm_as_enterprise (reference_date : Z) (orders_df : list Order)
    (payments_df : list Payment) :
  calculate_rfm reference_date orders_df payments_df
  = EnterpriseRFMAnalyzer._calculate_rfm_metrics reference_date
      (EnterpriseRFMAnalyzer.merge orders_df payments_df).
Proof. reflexivity. Qed.

(** X16.  On clean data the two analyzers compute the same metrics: when no
    joined row is dated after [now] or carries a payment of zero or less,
    the enterprise preparation removes nothing, and the columns
    [customer_id], [recency], [frequency] and [monetary] of
    [_calculate_rfm_metrics] are, row by row, those of the simple
    [calculate_rfm]. *)
Theorem analyzers_agree_on_clean_data (reference_date now : Z)
    (orders_df : list Order) (payments_df : list Payment) :
  Forall (fun row => order_date row <= now
                     /\ cell_leb (payment_value row) (Some 0%Q) = false)
         (EnterpriseRFMAnalyzer.merge orders_df payments_df) ->
  map (fun row => (customer_id row, recency row, frequency row, monetary row))
    (EnterpriseRFMAnalyzer._calculate_rfm_metrics reference_date
       (EnterpriseRFMAnalyzer._prepare_data now orders_df payments_df))
  = map (fun row => (customer_id row, recency row, frequency row, monetary row))
      (calculate_rfm reference_date orders_df payments_df).
Proof.
  intros Hclean. rewrite calculate_rfm_as_enterprise. do 2 f_equal.
  unfold EnterpriseRFMAnalyzer._prepare_data.
  rewrite (mask_filter (fun row => now <? order_date row)).
  rewrite (mask_filter (fun row => cell_leb (payment_value row) (Some 0%Q))).
  rewrite (filter_all (fun row => negb (now <? order_date row))).
  - apply filter_all. eapply Forall_impl; [| exact Hclean].
    intros row (_ & Hpay). simpl. now apply negb_true_iff.
  - eapply Forall_impl; [| exact Hclean].
    intros row (Hdate & _). simpl. apply negb_true_iff, Z.ltb_ge. exact Hdate.
Qed.

Lemma analyzers_agree_on_clean_data_witness :
  map (fun row => (customer_id row, recency row, frequency row, monetary row))
    (EnterpriseRFMAnalyzer._calculate_rfm_metrics 864000
       (EnterpriseRFMAnalyzer._prepare_data 864000
          [mkOrder "o1" "ann" 0; mkOrder "o2" "bob" 86400]
          [mkPayment "o1" 30; mkPaymentCell "o2" None]))
  = map (fun row => (customer_id row, recency row, frequency row, monetary row))
      (calculate_rfm 864000
         [mkOrder "o1" "ann" 0; mkOrder "o2" "bob" 86400]
         [mkPayment "o1" 30; mkPaymentCell "o2" None]).
Proof.
  apply (analyzers_agree_on_clean_data 864000 864000).
  vm_compute. repeat constructor; discriminate.
Defined.

(** X17.  [run_rfm_analysis] returns a segmented table only if at least one
    order joins a payment; otherwise the metrics table is empty and score
    assignment raises. *)
Theorem run_rfm_analysis_needs_a_paid_order (orders : list Order)
    (payments : list Payment) (rfm_segments : list SegmentedCustomer) :
  run_rfm_analysis orders payments = Ok rfm_segments ->
  exists o p, In o orders /\ In p payments /\ p_order_id p = o_order_id o.
Proof.
  unfold run_rfm_analysis. rewrite calculate_rfm_as_enterprise. intros H.
  apply bind_Ok in H as (scores & Hscores & _).
  apply assign_scores_sound in Hscores as Hsound.
  destruct (EnterpriseRFMAnalyzer.merge orders payments) as [| row rest] eqn:E.
  - vm_compute in Hscores. discriminate.
  - assert (Hrow : In row (EnterpriseRFMAnalyzer.merge orders payments))
      by (rewrite E; now left).
    apply merge_In in Hrow as (o & p & Ho & Hp & Heq & _). eauto.
Qed.

Lemma run_rfm_analysis_needs_a_paid_order_witness :
  exists o p,
    In o [mkOrder "o1" "ann" 0; mkOrder "o2" "bob" 86400]
    /\ In p [mkPayment "o1" 30; mkPayment "o2" 5]
    /\ p_order_id p = o_order_id o.
Proof.
  eapply (run_rfm_analysis_needs_a_paid_order
            [mkOrder "o1" "ann" 0; mkOrder "o2" "bob" 86400]
            [mkPayment "o1" 30; mkPayment "o2" 5]).
  vm_compute. reflexivity.
Defined.

Lemma max_list_ge (l : list Z) (d : Z) :
  In d l -> d <= fold_right Z.max (hd 0 l) l.
Proof.
  destruct l as [| d0 t]; [intros [] |]. simpl.
  intros [-> | Hin]; [lia |].
  assert (d <= fold_right Z.max d0 t).
  { induction t as [| a t IH]; [destruct Hin |].
    simpl. destruct Hin as [-> | Hin]; [lia | specialize (IH Hin); lia]. }
  lia.
Qed.

(** X18.  In the table [run_rfm_analysis] returns, every customer has a
    recency of at least one day: the reference date is one day after the
    last order of the whole order book. *)
Theorem run_rfm_analysis_recency_at_least_one (orders : list Order)
    (payments : list Payment) (rfm_segments : list SegmentedCustomer) :
  run_rfm_analysis orders payments = Ok rfm_segments ->
  Forall (fun row => exists days : Z,
            recency (metrics (scored row)) = num days /\ 1 <= days)
         rfm_segments.
Proof.
  unfold run_rfm_analysis. intros H.
  apply bind_Ok in H as (scores & Hscores & H). injection H as <-.
  pose proof (scored_rows := score_assignment_columns Simple _ _ Hscores).
  destruct scored_rows as (r & f & m & -> & Hr & Hf & Hm).
  pose proof (with_scores_metrics _ r f m Hr Hf Hm) as Hmetrics.
  apply Forall_forall. intros row Hin.
  unfold RFMAnalyzer.create_segments in Hin.
  apply in_map_iff in Hin as (srow & <- & Hs). simpl.
  assert (Hrow : In (metrics srow)
                    (calculate_rfm (last_order_date orders + 86400) orders payments)).
  { rewrite <- Hmetrics. now apply in_map. }
  unfold calculate_rfm in Hrow.
  apply in_map_iff in Hrow as (key & Hkey & Hin). rewrite <- Hkey. simpl.
  eexists. split; [reflexivity |].
  set (df := EnterpriseRFMAnalyzer.merge orders payments) in *.
  pose proof (group_of_key df key Hin) as Hne.
  assert (Hmax : fold_right Z.max
                   (hd 0 (map order_date (EnterpriseRFMAnalyzer.group df key)))
                   (map order_date (EnterpriseRFMAnalyzer.group df key))
                 <= last_order_date orders).
  { apply max_date_bound.
    - destruct (EnterpriseRFMAnalyzer.group df key); [congruence | discriminate].
    - apply Forall_forall. intros d Hd.
      apply in_map_iff in Hd as (mrow & <- & Hm').
      unfold EnterpriseRFMAnalyzer.group in Hm'. apply filter_In in Hm' as (Hm' & _).
      subst df. apply merge_In in Hm' as (o & p & Ho & _ & _ & ->). simpl.
      apply max_list_ge. now apply in_map. }
  apply Z.div_le_lower_bound; lia.
Qed.

Lemma run_rfm_analysis_recency_at_least_one_witness :
  exists rfm_segments,
    run_rfm_analysis
      [mkOrder "o1" "ann" 0; mkOrder "o2" "bob" 86400; mkOrder "o3" "cy" 200000]
      [mkPayment "o1" 30; mkPayment "o2" 5] = Ok rfm_segments
    /\ Forall (fun row => exists days : Z,
                 recency (metrics (scored row)) = num days /\ 1 <= days)
              rfm_segments.
Proof.
  eexists. split; [vm_compute; reflexivity |].
  apply (run_rfm_analysis_recency_at_least_one
           [mkOrder "o1" "ann" 0; mkOrder "o2" "bob" 86400; mkOrder "o3" "cy" 200000]
           [mkPayment "o1" 30; mkPayment "o2" 5]).
  vm_compute. reflexivity.
Defined.

(** ** The join-integrity check *)

Lemma order_ids_elem (orders_df : list Order) (id : string) :
  id ∈ (list_to_set (map o_order_id orders_df) : gset string)
  <-> exists o, In o orders_df /\ o_order_id o = id.
Proof.
  rewrite elem_of_list_to_set, list_elem_of_In, in_map_iff.
  split; intros (o & H1 & H2); eauto.
Qed.

Lemma payment_ids_elem (payments_df : list Payment) (id : string) :
  id ∈ (list_to_set (map p_order_id payments_df) : gset string)
  <-> exists p, In p payments_df /\ p_order_id p = id.
Proof.
  rewrite elem_of_list_to_set, list_elem_of_In, in_map_iff.
  split; intros (p & H1 & H2); eauto.
Qed.

(** X19.  In the join-integrity report, the orders with and without a payment
    add up to the number of distinct order ids, and the join ratio lies
    between 0 and 1.  With no order at all the ratio is 0 (no division by
    zero) and the join is reported as not acceptable. *)
Theorem join_integrity_counts (orders_df : list Order) (payments_df : list Payment) :
  let report := _validate_join_integrity orders_df payments_df in
  (orders_with_payments report + orders_without_payments report
   = size (list_to_set (map o_order_id orders_df) : gset string))%nat
  /\ (0 <= join_success_ratio report <= 1)%Q
  /\ match orders_df with
     | [] => join_success_ratio report = 0%Q /\ is_acceptable report = false
     | _ :: _ => True
     end.
Proof.
  unfold _validate_join_integrity. simpl.
  set (orders_ids := (list_to_set (map o_order_id orders_df) : gset string)).
  set (payments_ids := (list_to_set (map p_order_id payments_df) : gset string)).
  assert (Hle : (size (orders_ids ∩ payments_ids) <= size orders_ids)%nat)
    by apply subseteq_size, intersection_subseteq_l.
  pose proof (size_difference_alt orders_ids payments_ids) as Hdiff.
  split; [lia |]. split.
  - destruct (decide (orders_ids = ∅)) as [He | Hne]; [lra |].
    assert (Hpos : (0 < size orders_ids)%nat).
    { apply Nat.neq_0_lt_0, size_non_empty_iff. intros H. apply Hne.
      now apply leibniz_equiv. }
    assert (Hn : (0 < inject_Z (Z.of_nat (size orders_ids)))%Q)
      by (rewrite <- (Zlt_Qlt 0); lia).
    assert (Hi : (0 <= inject_Z (Z.of_nat (size (orders_ids ∩ payments_ids))))%Q)
      by (rewrite <- (Zle_Qle 0); lia).
    assert (Hin : (inject_Z (Z.of_nat (size (orders_ids ∩ payments_ids)))
                   <= inject_Z (Z.of_nat (size orders_ids)))%Q)
      by (rewrite <- Zle_Qle; lia).
    split; [apply Qle_shift_div_l; lra | apply Qle_shift_div_r; lra].
  - destruct orders_df; [| exact I]. split; reflexivity.
Qed.

(** X20.  When every order has a payment and there is at least one order, no
    order is counted as unpaid, the join ratio is 1 and the join is reported
    as acceptable. *)
Theorem join_integrity_complete (orders_df : list Order) (payments_df : list Payment) :
  orders_df <> [] ->
  Forall (fun o => exists p, In p payments_df /\ p_order_id p = o_order_id o)
         orders_df ->
  let report := _validate_join_integrity orders_df payments_df in
  orders_without_payments report = 0%nat
  /\ (join_success_ratio report == 1)%Q
  /\ is_acceptable report = true.
Proof.
  intros Hne Hpaid. unfold _validate_join_integrity. simpl.
  set (orders_ids := (list_to_set (map o_order_id orders_df) : gset string)).
  set (payments_ids := (list_to_set (map p_order_id payments_df) : gset string)).
  assert (Hsub : orders_ids ⊆ payments_ids).
  { intros id Hid. apply order_ids_elem in Hid as (o & Ho & <-).
    rewrite Forall_forall in Hpaid. destruct (Hpaid o Ho) as (p & Hp & Heq).
    apply payment_ids_elem. eauto. }
  assert (Hinter : orders_ids ∩ payments_ids = orders_ids)
    by now apply subseteq_intersection_1_L.
  assert (Hdiff : orders_ids ∖ payments_ids = ∅)
    by now apply subseteq_empty_difference_L.
  assert (Hnonempty : orders_ids <> ∅).
  { destruct orders_df as [| o rest]; [congruence |].
    intros He.
    assert (Hin : o_order_id o ∈ orders_ids)
      by (apply order_ids_elem; exists o; split; [now left | reflexivity]).
    rewrite He in Hin. now apply not_elem_of_empty in Hin. }
  assert (Hpos : (0 < size orders_ids)%nat).
  { apply Nat.neq_0_lt_0, size_non_empty_iff. intros H. apply Hnonempty.
    now apply leibniz_equiv. }
  rewrite Hinter, Hdiff.
  destruct (decide (orders_ids = ∅)) as [He | _]; [contradiction |].
  assert (Hn : ~ (inject_Z (Z.of_nat (size orders_ids)) == 0)%Q).
  { intros H. unfold Qeq in H. simpl in H. lia. }
  assert (Hratio : (inject_Z (Z.of_nat (size orders_ids))
                    / inject_Z (Z.of_nat (size orders_ids)) == 1)%Q)
    by (field; exact Hn).
  split; [apply size_empty |]. split; [exact Hratio |].
  apply Qle_bool_iff. rewrite Hratio. lra.
Qed.

Lemma join_integrity_complete_witness :
  let report :=
    _validate_join_integrity
      [mkOrder "o1" "ann" 0; mkOrder "o2" "bob" 86400]
      [mkPayment "o2" 5; mkPayment "o1" 30; mkPayment "o1" 12] in
  orders_without_payments report = 0%nat
  /\ (join_success_ratio report == 1)%Q
  /\ is_acceptable report = true.
Proof.
  apply (join_integrity_complete
           [mkOrder "o1" "ann" 0; mkOrder "o2" "bob" 86400]
           [mkPayment "o2" 5; mkPayment "o1" 30; mkPayment "o1" 12]).
  - discriminate.
  - repeat constructor; simpl; eauto 6.
Defined.

(** ** The monetary-values check *)

(** A payment value is negative, or zero, or neither; [payment_value <= 0]
    holds in the first two cases only.  A missing value is neither. *)
Lemma invalid_payment_split (c : cell) :
  (cell_ltb c (Some 0%Q) = true /\ cell_eqb c (Some 0%Q) = false
   /\ cell_leb c (Some 0%Q) = true)
  \/ (cell_ltb c (Some 0%Q) = false /\ cell_eqb c (Some 0%Q) = true
      /\ cell_leb c (Some 0%Q) = true)
  \/ (cell_ltb c (Some 0%Q) = false /\ cell_eqb c (Some 0%Q) = false
      /\ cell_leb c (Some 0%Q) = false).
Proof.
  destruct c as [v |]; simpl; [| auto].
  assert (Hlt : forall a b, ~ (a < b)%Q -> Qltb a b = false).
  { intros a b H. destruct (Qltb a b) eqn:E; [| reflexivity].
    apply Qltb_lt in E. contradiction. }
  assert (Hle : forall a b, ~ (a <= b)%Q -> Qle_bool a b = false).
  { intros a b H. destruct (Qle_bool a b) eqn:E; [| reflexivity].
    apply Qle_bool_iff in E. contradiction. }
  destruct (Q_dec v 0) as [[Hneg | Hpos] | Hzero].
  - left. split; [now apply Qltb_lt |].
    split; [apply Qeq_bool_false | apply Qle_bool_iff]; lra.
  - right. right. split; [apply Hlt; lra |].
    split; [apply Qeq_bool_false | apply Hle]; lra.
  - right. left. split; [apply Hlt; lra |].
    split; [now apply Qeq_bool_iff | apply Qle_bool_iff; lra].
Qed.

(** X21.  In the monetary check, the negative and the zero payments together
    are exactly the payments the preparation treats as invalid
    ([payment_value <= 0]); a missing value is counted in neither.  When no
    payment value is present (an empty table included), minimum, maximum
    and average are all missing; otherwise minimum and maximum are present,
    both are payment values of the table, and every present value lies
    between them. *)
Theorem monetary_check_consistent (payments_df : list Payment) :
  let check := _validate_monetary_values payments_df in
  let values := map p_payment_value payments_df in
  (negative_payments check + zero_payments check
   = length (List.filter (fun p => cell_leb (p_payment_value p) (Some 0%Q))
               payments_df))%nat
  /\ match dropna values with
     | [] => min_payment check = None /\ max_payment check = None
             /\ avg_payment check = None
     | _ :: _ =>
         exists mn mx,
           min_payment check = Some mn /\ max_payment check = Some mx
           /\ In (Some mn) values /\ In (Some mx) values
           /\ Forall (fun c => forall v, c = Some v -> (mn <= v <= mx)%Q) values
     end.
Proof.
  unfold _validate_monetary_values. simpl. split.
  - induction payments_df as [| p rest IH]; [reflexivity |].
    cbn [map List.filter].
    destruct (invalid_payment_split (p_payment_value p)) as [(-> & -> & ->) | Hrest];
      [simpl length; lia |].
    destruct Hrest as [(-> & -> & ->) | (-> & -> & ->)]; simpl length; lia.
  - set (values := map p_payment_value payments_df).
    destruct (dropna values) as [| v0 t] eqn:E.
    + unfold nanmin, nanmax, series_mean. rewrite E. auto.
    + assert (Hv : has_value values) by (unfold has_value; rewrite E; discriminate).
      destruct (nan_extrema _ Hv) as (mn & mx & Hmn & Hmx).
      destruct (extrema_bound_values values mn mx Hmn Hmx) as (Imn & Imx & Hb).
      exists mn, mx.
      split; [exact Hmn |]. split; [exact Hmx |].
      split; [now apply dropna_In |]. split; [now apply dropna_In |].
      apply Forall_forall. intros c Hc v ->.
      rewrite Forall_forall in Hb. now apply Hb, dropna_In.
Qed.

(** ** Recommendations *)

Lemma segment_recommendations_cases (seg : string) :
  (In seg ["Champions"; "At Risk"; "Lost"; "New Customers"]
   /\ length (segment_recommendations seg) = 4%nat)
  \/ (~ In seg ["Champions"; "At Risk"; "Lost"; "New Customers"]
      /\ segment_recommendations seg = []).
Proof.
  unfold segment_recommendations.
  destruct (String.eqb_spec seg "Champions") as [-> | H1];
    [left; simpl; auto |].
  destruct (String.eqb_spec seg "At Risk") as [-> | H2];
    [left; simpl; auto |].
  destruct (String.eqb_spec seg "Lost") as [-> | H3];
    [left; simpl; auto |].
  destruct (String.eqb_spec seg "New Customers") as [-> | H4];
    [left; simpl; auto 6 |].
  right. split; [| reflexivity]. simpl. intuition congruence.
Qed.

Lemma generate_recommendations_lookup (segment_stats : SegmentAnalysis)
    (seg : string) :
  generate_recommendations segment_stats !! seg
  = match segments segment_stats !! seg with
    | Some _ => match segment_recommendations seg with
                | [] => None
                | recs => Some recs
                end
    | None => None
    end.
Proof.
  unfold generate_recommendations. revert seg.
  apply (map_fold_weak_ind
           (fun (acc : gmap string (list string)) (m : gmap string SegmentStats) =>
              forall seg,
                acc !! seg
                = match m !! seg with
                  | Some _ => match segment_recommendations seg with
                              | [] => None
                              | recs => Some recs
                              end
                  | None => None
                  end)).
  - intros seg. now rewrite !lookup_empty.
  - intros i x m r Hnone IH seg.
    destruct (decide (i = seg)) as [-> | Hne].
    + rewrite lookup_insert_eq.
      destruct (segment_recommendations seg) as [| a t] eqn:E.
      * rewrite IH, Hnone. reflexivity.
      * now rewrite lookup_insert_eq.
    + rewrite (lookup_insert_ne m) by exact Hne.
      destruct (segment_recommendations i);
        [| rewrite lookup_insert_ne by exact Hne]; apply IH.
Qed.

(** X22.  Recommendations are produced for a segment exactly when it occurs
    in the per-segment statistics and is one of Champions, At Risk, Lost and
    New Customers; each such segment gets four recommendations.  The other
    six segments, Cannot Lose Them among them, never get any. *)
Theorem recommendations_only_for_four_segments (segment_stats : SegmentAnalysis)
    (seg : string) :
  match generate_recommendations segment_stats !! seg with
  | Some recs =>
      is_Some (segments segment_stats !! seg)
      /\ In seg ["Champions"; "At Risk"; "Lost"; "New Customers"]
      /\ recs = segment_recommendations seg
      /\ length recs = 4%nat
  | None =>
      segments segment_stats !! seg = None
      \/ ~ In seg ["Champions"; "At Risk"; "Lost"; "New Customers"]
  end.
Proof.
  rewrite generate_recommendations_lookup.
  destruct (segments segment_stats !! seg) as [entry |]; [| now left].
  destruct (segment_recommendations_cases seg) as [(Hin & Hlen) | (Hout & Hnil)].
  - destruct (segment_recommendations seg) as [| a t] eqn:E; [discriminate |].
    split; [eauto |]. split; [exact Hin |]. split; [reflexivity | exact Hlen].
  - rewrite Hnil. now right.
Qed.

(** ** Data validation *)

Section ValidationProperties.
Context (format_2f str_float : Q -> string).

Lemma rule_result_consistent (rule : ValidationRule) (df : DataFrame) :
  let r := Validation.rule_validate format_2f str_float rule df in
  (is_valid r = true <-> errors r = []) /\ warnings r = [].
Proof.
  destruct rule as [column max_pct | column expected]; simpl.
  - unfold Validation.NotNullRule_validate.
    destruct (columns df !! column) as [series |]; simpl.
    + change (String.eqb Validation.severity "error") with true. cbv iota.
      destruct (Qltb max_pct _); simpl; repeat split; auto; discriminate.
    + repeat split; auto; discriminate.
  - unfold Validation.DataTypeRule_validate.
    destruct (columns df !! column) as [series |]; simpl.
    + destruct (negb _); simpl; repeat split; auto; discriminate.
    + repeat split; auto; discriminate.
Qed.

Lemma validate_fold (rules : list ValidationRule) (df : DataFrame)
    (acc : ValidationResult) :
  let run := fold_left
               (fun overall rule =>
                  Validation.merge overall
                    (Validation.rule_validate format_2f str_float rule df))
               rules acc in
  is_valid run
  = is_valid acc
    && forallb (fun rule =>
                  is_valid (Validation.rule_validate format_2f str_float rule df))
               rules
  /\ errors run
     = errors acc
       ++ concat (map (fun rule =>
                         errors (Validation.rule_validate format_2f str_float rule df))
                      rules)
  /\ warnings run
     = warnings acc
       ++ concat (map (fun rule =>
                         warnings (Validation.rule_validate format_2f str_float rule df))
                      rules).
Proof.
  revert acc. induction rules as [| rule rest IH]; intros acc; simpl.
  - rewrite andb_true_r, !app_nil_r. auto.
  - destruct (IH (Validation.merge acc
                    (Validation.rule_validate format_2f str_float rule df)))
      as (Hv & He & Hw).
    rewrite Hv, He, Hw. simpl. rewrite <- !app_assoc.
    repeat split.
    destruct (is_valid (Validation.rule_validate format_2f str_float rule df)),
      (is_valid acc); reflexivity.
Qed.

(** X23.  The overall validation result is valid exactly when every rule's
    own result is valid, which is exactly when the overall list of errors is
    empty; that list is the rules' errors in rule order.  No warning is ever
    produced: every rule is built with severity 'error'. *)
Theorem validate_summary (rules : list ValidationRule) (df : DataFrame) :
  let overall := Validation.validate format_2f str_float rules df in
  is_valid overall
  = forallb (fun rule =>
               is_valid (Validation.rule_validate format_2f str_float rule df))
            rules
  /\ errors overall
     = concat (map (fun rule =>
                      errors (Validation.rule_validate format_2f str_float rule df))
                   rules)
  /\ (is_valid overall = true <-> errors overall = [])
  /\ warnings overall = [].
Proof.
  unfold Validation.validate.
  destruct (validate_fold rules df Validation.new_result) as (Hv & He & Hw).
  cbn zeta in Hv, He, Hw. cbn zeta. rewrite Hv, He, Hw. clear Hv He Hw.
  cbn [Validation.new_result is_valid errors warnings andb app].
  split; [reflexivity |]. split; [reflexivity |]. split.
  - induction rules as [| rule rest IH]; cbn [forallb map concat]; [tauto |].
    destruct (rule_result_consistent rule df) as (Hc & _). cbn zeta in Hc.
    rewrite andb_true_iff, IH, Hc. split.
    + intros (-> & ->). reflexivity.
    + intros H. apply app_eq_nil in H. exact H.
  - induction rules as [| rule rest IH]; cbn [map concat]; [reflexivity |].
    destruct (rule_result_consistent rule df) as (_ & Hw'). cbn zeta in Hw'.
    now rewrite Hw', IH.
Qed.

Lemma no_true_iff (l : list bool) :
  length (List.filter (fun b : bool => b) l) = 0%nat <-> Forall (fun b => b = false) l.
Proof.
  induction l as [| b t IH]; simpl; [split; [constructor | reflexivity] |].
  destruct b; simpl.
  - split; [discriminate | intros H; inversion H; discriminate].
  - rewrite IH. split; [now constructor | intros H; now inversion H].
Qed.

(** X24.  A not-null rule with tolerance 0 accepts a frame exactly when the
    column exists and either the frame has no rows or no value of the column
    is null.  A missing column is an error, not an exception. *)
Theorem not_null_rule_valid_iff (column : string) (df : DataFrame) :
  is_valid (Validation.NotNullRule_validate format_2f str_float column 0 df) = true
  <-> exists series,
        columns df !! column = Some series
        /\ (n_rows df = 0%nat \/ Forall (fun b => b = false) (isnull series)).
Proof.
  unfold Validation.NotNullRule_validate.
  destruct (columns df !! column) as [series |]; simpl.
  2: { split; [discriminate | intros (s & H & _); discriminate]. }
  change (String.eqb Validation.severity "error") with true. cbv iota.
  set (null_count := length (List.filter (fun b : bool => b) (isnull series))).
  assert (Hgoal : (n_rows df = 0%nat \/ null_count = 0%nat)
                  <-> (n_rows df = 0%nat \/ Forall (fun b => b = false) (isnull series))).
  { subst null_count. now rewrite no_true_iff. }
  destruct (Nat.ltb_spec 0 (n_rows df)) as [Hrows | Hrows].
  - destruct (Qltb 0 _) eqn:E; simpl.
    + split; [discriminate |]. intros (s & Hs & Hok). injection Hs as <-.
      apply Hgoal in Hok as [H0 | H0]; [lia |].
      apply Qltb_lt in E. rewrite H0 in E. exfalso. revert E.
      unfold Qdiv. simpl. unfold Qlt. simpl. lia.
    + split; [| reflexivity]. intros _. exists series. split; [reflexivity |].
      apply Hgoal. right.
      destruct null_count as [| k] eqn:Ek; [reflexivity | exfalso].
      assert (Hlt : Qltb 0
                      (inject_Z (Z.of_nat (S k)) / inject_Z (Z.of_nat (n_rows df))
                       * 100) = true).
      { apply Qltb_lt.
        assert (0 < inject_Z (Z.of_nat (S k)))%Q by (rewrite <- (Zlt_Qlt 0); lia).
        assert (0 < inject_Z (Z.of_nat (n_rows df)))%Q by (rewrite <- (Zlt_Qlt 0); lia).
        assert (0 < inject_Z (Z.of_nat (S k)) / inject_Z (Z.of_nat (n_rows df)))%Q
          by (apply Qlt_shift_div_l; lra).
        lra. }
      congruence.
  - change (Qltb 0 0) with false. simpl.
    split; [| reflexivity]. intros _. exists series. split; [reflexivity |].
    left. lia.
Qed.

(** X25.  The RFM validator rejects every frame that has no [customer_id]
    column -- a payments table, for one: the result is invalid, its first
    error says that the column was not found, and [validate_or_raise] raises
    DataValidationError. *)
Theorem rfm_validator_needs_customer_id (df : DataFrame) :
  columns df !! "customer_id" = None ->
  let overall := Validation.validate format_2f str_float _setup_validator df in
  is_valid overall = false
  /\ hd_error (errors overall) = Some "Column customer_id not found in DataFrame"
  /\ Validation.validate_or_raise format_2f str_float _setup_validator df
     = Raise DataValidationError.
Proof.
  intros Hmissing.
  destruct (validate_summary _setup_validator df) as (Hv & He & _).
  assert (Hfirst : Validation.rule_validate format_2f str_float
                     (NotNullRule "customer_id" 0) df
                   = Validation.add_error Validation.new_result
                       "Column customer_id not found in DataFrame").
  { simpl. unfold Validation.NotNullRule_validate. now rewrite Hmissing. }
  assert (Hinvalid : is_valid (Validation.validate format_2f str_float
                                 _setup_validator df) = false).
  { rewrite Hv. unfold _setup_validator. cbn [forallb]. now rewrite Hfirst. }
  split; [exact Hinvalid |]. split.
  - rewrite He. unfold _setup_validator. cbn [map concat]. now rewrite Hfirst.
  - unfold Validation.validate_or_raise. now rewrite Hinvalid.
Qed.

Lemma string_type_rule_valid_iff (column : string) (df : DataFrame) :
  is_valid (Validation.DataTypeRule_validate column "string" df) = true
  <-> exists series,
        columns df !! column = Some series
        /\ String.prefix "object" (dtype series) = true.
Proof.
  unfold Validation.DataTypeRule_validate.
  destruct (columns df !! column) as [series |]; simpl.
  2: { split; [discriminate | intros (s & H & _); discriminate]. }
  rewrite !andb_false_r, !orb_false_r, andb_true_r.
  destruct (String.prefix "object" (dtype series)) eqn:E; simpl.
  - split; [| reflexivity]. intros _. exists series. auto.
  - split; [discriminate |]. intros (s & Hs & Hp). injection Hs as <-. congruence.
Qed.

(** X26.  The RFM validator accepts a frame exactly when the three columns
    [customer_id], [order_id] and [order_purchase_timestamp] exist and hold
    no null (or the frame has no rows), and the dtypes of [customer_id] and
    [order_id] start with [object]. *)
Theorem rfm_validator_valid_iff (df : DataFrame) :
  is_valid (Validation.validate format_2f str_float _setup_validator df) = true
  <-> (forall column,
         In column ["customer_id"; "order_id"; "order_purchase_timestamp"] ->
         exists series,
           columns df !! column = Some series
           /\ (n_rows df = 0%nat \/ Forall (fun b => b = false) (isnull series)))
      /\ (forall column,
            In column ["customer_id"; "order_id"] ->
            exists series,
              columns df !! column = Some series
              /\ String.prefix "object" (dtype series) = true).
Proof.
  destruct (validate_summary _setup_validator df) as (Hv & _).
  cbn zeta in Hv. rewrite Hv. unfold _setup_validator.
  cbn [forallb Validation.rule_validate].
  rewrite !andb_true_iff, !not_null_rule_valid_iff, !string_type_rule_valid_iff.
  split.
  - intros (N1 & N2 & N3 & T1 & T2 & _). split; intros column Hin; simpl in Hin.
    + destruct Hin as [<- | [<- | [<- | []]]]; assumption.
    + destruct Hin as [<- | [<- | []]]; assumption.
  - intros (Hn & Ht).
    repeat split; (apply Hn || apply Ht); simpl; auto.
Qed.

End ValidationProperties.

Lemma rfm_validator_needs_customer_id_witness :
  let payments_frame :=
    mkDataFrame
      (<["order_id" := mkSeries "object" [false; false]]>
         (<["payment_value" := mkSeries "float64" [false; false]]> ∅))
      2 in
  let overall :=
    Validation.validate (fun _ => "0.00") (fun _ => "0") _setup_validator
      payments_frame in
  is_valid overall = false
  /\ hd_error (errors overall) = Some "Column customer_id not found in DataFrame"
  /\ Validation.validate_or_raise (fun _ => "0.00") (fun _ => "0") _setup_validator
       payments_frame
     = Raise DataValidationError.
Proof.
  apply (rfm_validator_needs_customer_id (fun _ => "0.00") (fun _ => "0")).
  vm_compute. reflexivity.
Defined.
